(** * Extractor: handwritten-table extraction client, CSV export and view controller

    A shallow embedding of [src/App.tsx] and [src/services/geminiService.ts]
    (both the fixed-schema and the dynamic-header revision of the service
    module), followed by the properties established about them.

    Conventions.
    - JavaScript strings are [string]s; the built-in string methods the
      program calls ([split], [join], [replace] with a global pattern,
      [includes], [trim]) are written out in [JsString].
    - A [TableRow] is the list of the object's own properties in the order
      of their creation (for a parsed object, the order of the members in
      the text); every value is a string, as the type declaration of the
      repository says. A row inherits from [Object.prototype]: reading a
      property the row does not have gives the member of that name when
      there is one, and [undefined] otherwise.
    - Thrown values, promise rejections and console output are explicit: an
      effectful function maps the log of effects so far to the extended log
      and either a thrown value or a result.
    - What the platform supplies (the JSON parser, the remote service, the
      file reader, object URLs) is a field of [Runtime]. *)

From Stdlib Require Import String Ascii List Bool Arith ZArith DecimalString Lia.
From Stdlib Require Import Permutation Sorted.
Import ListNotations.
Local Open Scope string_scope.
Local Open Scope list_scope.

(* ===================================================================== *)
(** ** JavaScript string built-ins used by the program *)
(* ===================================================================== *)

Module JsString.

Definition dquote : ascii := "034"%char.
Definition comma : ascii := ","%char.
Definition newline : ascii := "010"%char.

(** A one-character string. *)
Definition str1 (c : ascii) : string := String c EmptyString.

(** [s.split(sep)] for a one-character separator: never empty, the
    empty string splits into one empty field. *)
Fixpoint split (sep : ascii) (s : string) : list string :=
  match s with
  | EmptyString => [EmptyString]
  | String c s' =>
      if Ascii.eqb c sep then EmptyString :: split sep s'
      else match split sep s' with
           | [] => [str1 c]
           | field :: fields => String c field :: fields
           end
  end.

(** [a.join(sep)]. *)
Fixpoint join (sep : string) (a : list string) : string :=
  match a with
  | [] => EmptyString
  | [x] => x
  | x :: rest => x ++ sep ++ join sep rest
  end.

(** [a[i]] on an array of strings: [undefined] past the end. *)
Definition index (a : list string) (i : nat) : option string := nth_error a i.

(** [s.startsWith(p)]. *)
Fixpoint startsWith (p s : string) : bool :=
  match p, s with
  | EmptyString, _ => true
  | String _ _, EmptyString => false
  | String a p', String b s' => Ascii.eqb a b && startsWith p' s'
  end.

(** [s.includes(p)]. *)
Fixpoint includes (p s : string) : bool :=
  startsWith p s ||
  match s with
  | EmptyString => false
  | String _ s' => includes p s'
  end.

(** [s.replace(/c/g, by)] for a pattern that is one literal character:
    the scan goes left to right and every match is replaced. *)
Fixpoint replace_all (c : ascii) (by_ : string) (s : string) : string :=
  match s with
  | EmptyString => EmptyString
  | String a s' =>
      if Ascii.eqb a c then by_ ++ replace_all c by_ s'
      else String a (replace_all c by_ s')
  end.

(** White space and line terminators removed by [trim], among the code
    units below 256: tab, line feed, vertical tab, form feed, carriage
    return, space and the no-break space. *)
Definition is_space (c : ascii) : bool :=
  let n := nat_of_ascii c in
  ((9 <=? n)%nat && (n <=? 13)%nat) || (n =? 32)%nat || (n =? 160)%nat.

Fixpoint trimStart (s : string) : string :=
  match s with
  | EmptyString => EmptyString
  | String c s' => if is_space c then trimStart s' else s
  end.

Fixpoint trimEnd (s : string) : string :=
  match s with
  | EmptyString => EmptyString
  | String c s' =>
      match trimEnd s' with
      | EmptyString => if is_space c then EmptyString else str1 c
      | t => String c t
      end
  end.

(** [s.trim()]. *)
Definition trim (s : string) : string := trimEnd (trimStart s).

(** Does the character occur in the string. *)
Fixpoint occurs (c : ascii) (s : string) : bool :=
  match s with
  | EmptyString => false
  | String a s' => Ascii.eqb a c || occurs c s'
  end.

(** The last character of a string. *)
Fixpoint last_char (s : string) : option ascii :=
  match s with
  | EmptyString => None
  | String c EmptyString => Some c
  | String _ s' => last_char s'
  end.

(** A value is falsy when it is [undefined] or the empty string. *)
Definition truthy (v : option string) : bool :=
  match v with
  | Some (String _ _) => true
  | _ => false
  end.

(** [v || d] on a possibly undefined string. *)
Definition or_else (v : option string) (d : string) : string :=
  match v with
  | Some (String c s) => String c s
  | _ => d
  end.

End JsString.

Import JsString.

(* ===================================================================== *)
(** ** types.ts *)
(* ===================================================================== *)

(** [TableRow]: string keys, string values; the list has the own
    properties in the order they were created. *)
Definition TableRow : Type := list (string * string).

(** [ExtractedData = TableRow[]]. *)
Definition ExtractedData : Type := list TableRow.

(** The value of a string of decimal digits. *)
Fixpoint numeral (s : string) (acc : N) : option N :=
  match s with
  | EmptyString => Some acc
  | String c rest =>
      let n := nat_of_ascii c in
      if ((48 <=? n) && (n <=? 57))%nat
      then numeral rest (10 * acc + N.of_nat (n - 48))%N
      else None
  end.

(** A property key is an array index when it is the canonical decimal
    numeral (no sign, no leading zero) of an integer from 0 to 2^32 - 2. *)
Definition array_index (key : string) : option N :=
  match key with
  | EmptyString => None
  | String "0" EmptyString => Some 0%N
  | String "0" _ => None
  | _ =>
      match numeral key 0%N with
      | Some n => if (n <? 4294967295)%N then Some n else None
      | None => None
      end
  end.

Definition is_array_index (key : string) : bool :=
  match array_index key with
  | Some _ => true
  | None => false
  end.

(** The keys that are array indices, each with its number. *)
Fixpoint indexed (keys : list string) : list (N * string) :=
  match keys with
  | [] => []
  | key :: rest =>
      match array_index key with
      | Some n => (n, key) :: indexed rest
      | None => indexed rest
      end
  end.

Fixpoint insert_ascending (x : N * string) (l : list (N * string)) : list (N * string) :=
  match l with
  | [] => [x]
  | y :: rest =>
      if (fst x <=? fst y)%N then x :: l else y :: insert_ascending x rest
  end.

Definition ascending (l : list (N * string)) : list (N * string) :=
  fold_right insert_ascending [] l.

(** [Object.keys(row)]: the own keys that are array indices in ascending
    numeric order, then the other keys in the order of their creation. *)
Definition Object_keys (row : TableRow) : list string :=
  let keys := map fst row in
  map snd (ascending (indexed keys))
    ++ filter (fun key => negb (is_array_index key)) keys.

(** The own property of a row under a key, when it has one. *)
Fixpoint own (row : TableRow) (key : string) : option string :=
  match row with
  | [] => None
  | (k, v) :: rest => if String.eqb k key then Some v else own rest key
  end.

(** The names of the members of [Object.prototype], which every row
    inherits: functions, and under [__proto__] the prototype itself. *)
Definition Object_prototype : list string :=
  ["constructor"; "hasOwnProperty"; "isPrototypeOf"; "propertyIsEnumerable";
   "toLocaleString"; "toString"; "valueOf"; "__proto__";
   "__defineGetter__"; "__defineSetter__"; "__lookupGetter__"; "__lookupSetter__"].

Definition inherited (key : string) : bool :=
  existsb (String.eqb key) Object_prototype.

(** What reading a property of a row gives: [undefined], a string, or a
    member of [Object.prototype] (kept by its name; none is a string and
    all are truthy). *)
Inductive Value : Type :=
| Undefined
| Str (s : string)
| Member (name : string).

(** [row[key]]: the own property; failing that, the inherited member of
    that name; failing that, [undefined]. *)
Definition get (row : TableRow) (key : string) : Value :=
  match own row key with
  | Some v => Str v
  | None => if inherited key then Member key else Undefined
  end.

(* ===================================================================== *)
(** ** App.tsx: CSV serialisation *)
(* ===================================================================== *)

Module Csv.

(** How an evaluation ends: with a value, or with the [TypeError] of
    calling what is no function. *)
Inductive Completion (A : Type) : Type :=
| Normal (a : A)
| TypeError.

Arguments Normal {A} a.
Arguments TypeError {A}.

(** [array.map(f)] for an [f] that may throw: the elements are taken in
    order and the first throw ends the map. *)
Fixpoint map_throwing {A B : Type} (f : A -> Completion B) (l : list A)
  : Completion (list B) :=
  match l with
  | [] => Normal []
  | x :: rest =>
      match f x with
      | TypeError => TypeError
      | Normal y =>
          match map_throwing f rest with
          | TypeError => TypeError
          | Normal ys => Normal (y :: ys)
          end
      end
  end.

(** [v || '']. *)
Definition or_empty (v : Value) : Value :=
  match v with
  | Undefined => Str EmptyString
  | Str EmptyString => Str EmptyString
  | Str s => Str s
  | Member name => Member name
  end.

(** [v.replace(/q/g, qq)] with [q] the double quote: the method of a
    string; no other value here has a [replace] that can be called. *)
Definition replace_quotes (v : Value) : Completion string :=
  match v with
  | Str s => Normal (replace_all dquote (String dquote (str1 dquote)) s)
  | Undefined => TypeError
  | Member _ => TypeError
  end.

(** The template literal of a data cell: a double quote, then
    [(row[header] || '')] with every double quote replaced by two
    (the global [replace]), then a double quote. *)
Definition cell (row : TableRow) (header : string) : Completion string :=
  match replace_quotes (or_empty (get row header)) with
  | Normal escaped => Normal (str1 dquote ++ escaped ++ str1 dquote)%string
  | TypeError => TypeError
  end.

Definition row_line (headers : list string) (row : TableRow) : Completion string :=
  match map_throwing (cell row) headers with
  | Normal cells => Normal (join (str1 comma) cells)
  | TypeError => TypeError
  end.

(** [convertToCsv]; [None] is [null]. *)
Definition convertToCsv (data : option ExtractedData) : Completion string :=
  match data with
  | None => Normal EmptyString
  | Some [] => Normal EmptyString
  | Some (first :: rest) =>
      let headers := Object_keys first in
      let headerRow := join (str1 comma) headers in
      match map_throwing (row_line headers) (first :: rest) with
      | Normal rows => Normal (join (str1 newline) (headerRow :: rows))
      | TypeError => TypeError
      end
  end.

(** Is the value a member of [Object.prototype]. *)
Definition is_member (v : Value) : bool :=
  match v with
  | Member _ => true
  | _ => false
  end.

(** Does reading the row under one of the headers give an inherited
    member. *)
Definition reads_member (headers : list string) (row : TableRow) : bool :=
  existsb (fun header => is_member (get row header)) headers.

End Csv.

(* ===================================================================== *)
(** ** Values, thrown values and effects *)
(* ===================================================================== *)

(** What [JSON.parse] can return. A number is kept as the decimal
    [mantissa * 10 ^ exponent] that its literal denotes. *)
#[warnings="-register-all"]
Inductive Json : Type :=
| JNull
| JBool (b : bool)
| JNumber (mantissa : Z) (exponent : Z)
| JString (s : string)
| JArray (items : list Json)
| JObject (members : list (string * Json)).

(** A thrown value: an instance of [Error] with its [message], or anything
    else (a [ProgressEvent], a string, ...), kept by a description. *)
Inductive Thrown : Type :=
| ErrorObj (message : string)
| NonError (what : string).

(** [ai.models.generateContent] is called with one object; the two
    instruction texts are fixed and kept by name. *)
Inductive Prompt : Type :=
| ColumnsJKLPrompt
| IdentifyHeadersPrompt.

(** The [responseSchema] constant of the fixed-schema revision: an array of
    objects whose listed string properties are all required. *)
Record Schema : Type := {
  properties : list string;
  required : list string
}.

Record Request : Type := {
  model : string;
  text : Prompt;
  inlineData_data : option string;
  inlineData_mimeType : string;
  responseMimeType : string;
  responseSchema_ : option Schema
}.

(** Observable effects, oldest first. *)
Inductive Effect : Type :=
| NetworkCall (apiKey : string) (req : Request)
| ConsoleError (msg : string)
| FileRead (name : string).

Definition Log : Type := list Effect.

(** An effectful computation: it extends the log and throws or returns. *)
Definition Eff (A : Type) : Type := Log -> Log * (Thrown + A).

Definition ret {A} (a : A) : Eff A := fun log => (log, inr a).
Definition throw {A} (e : Thrown) : Eff A := fun log => (log, inl e).
Definition emit (e : Effect) : Eff unit := fun log => (log ++ [e], inr tt).

Definition bind {A B} (m : Eff A) (k : A -> Eff B) : Eff B :=
  fun log =>
    match m log with
    | (log', inl e) => (log', inl e)
    | (log', inr a) => k a log'
    end.

(** [try { body } catch (error) { handler(error) }]. *)
Definition try_catch {A} (body : Eff A) (handler : Thrown -> Eff A) : Eff A :=
  fun log =>
    match body log with
    | (log', inl e) => handler e log'
    | (log', inr a) => (log', inr a)
    end.

Declare Scope eff_scope.
Delimit Scope eff_scope with eff.
Notation "x <- m ;; k" := (bind m (fun x => k))
  (at level 61, m at next level, right associativity) : eff_scope.
Notation "m ;;; k" := (bind m (fun _ => k))
  (at level 61, right associativity) : eff_scope.

(** A [File] of the browser, as far as the program looks at it. *)
Record File : Type := {
  name : string;
  type : string
}.

(** How a [FileReader.readAsDataURL] ends: [onload] with [reader.result],
    or [onerror] with the event it is given. *)
Inductive ReadOutcome : Type :=
| Loaded (result : string)
| ReadFailed (event : string).

(** The platform.
    - [JSON_parse s] is the parsed value, or the message of the
      [SyntaxError] that [JSON.parse] throws.
    - [generateContent key history req] is how the remote call made by a
      client built with [key] ends after the effects [history]: it rejects
      with a thrown value or resolves with a response whose [text] is given.
    - [readAsDataURL] and [createObjectURL] are the browser's. The object
      URL is taken as a function of the file; a browser makes a new one
      at every call. *)
Record Runtime : Type := {
  JSON_parse : string -> string + Json;
  generateContent : string -> Log -> Request -> Thrown + string;
  readAsDataURL : File -> ReadOutcome;
  createObjectURL : File -> string
}.

(** [JSON.parse(s)] as a computation. *)
Definition parse (rt : Runtime) (s : string) : Eff Json :=
  match JSON_parse rt s with
  | inl message => throw (ErrorObj message)
  | inr v => ret v
  end.

(* ===================================================================== *)
(** ** services/geminiService.ts *)
(* ===================================================================== *)

(** The client object [new GoogleGenAI({ apiKey })]. *)
Record GoogleGenAI : Type := { apiKey : string }.

(** [await ai.models.generateContent(req)]. *)
Definition models_generateContent (rt : Runtime) (ai : GoogleGenAI) (req : Request)
  : Eff string :=
  fun log =>
    (log ++ [NetworkCall (apiKey ai) req], generateContent rt (apiKey ai) log req).

Module Messages.
Definition critical_no_key : string :=
  "CRITICAL: API_KEY environment variable not set. " ++
  "The application will not be able to connect to the Gemini API. " ++
  "Please ensure the API_KEY is set in your deployment environment and not exposed in the client-side code.".
Definition not_configured : string :=
  "Application not configured: API Key is missing. Please ensure the API_KEY environment variable is set for the deployment environment.".
Definition extracting_failed : string := "Error extracting data from image:".
Definition failed_prefix : string := "Failed to process image with Gemini API: ".
Definition unknown_error : string := "An unknown error occurred while processing the image.".
Definition unexpected_format : string :=
  "The AI returned data in an unexpected format. This can sometimes happen with complex handwriting. Please try again or use a clearer image.".
Definition config_error : string :=
  "Configuration Error: The API key is not set. This application is non-functional. Please ensure the API_KEY environment variable is configured for deployment.".
Definition invalid_file : string := "Please select a valid image file (JPG, JPEG, PNG).".
Definition no_image : string := "Please upload an image first.".
Definition unexpected_error : string := "An unexpected error occurred.".
End Messages.

(** Module initialisation, the same in both revisions:
    [const apiKey = process.env.API_KEY; let ai = null;
     if (apiKey) ai = new GoogleGenAI({ apiKey }) else console.error(...)].
    It returns the handle and what was written to the console. *)
Definition init_service (env_API_KEY : option string) : option GoogleGenAI * Log :=
  if truthy env_API_KEY
  then (Some {| apiKey := or_else env_API_KEY EmptyString |}, [])
  else (None, [ConsoleError Messages.critical_no_key]).

(** [isApiConfigured = () => !!ai]. *)
Definition isApiConfigured (ai : option GoogleGenAI) : bool :=
  match ai with
  | Some _ => true
  | None => false
  end.

(** The revision that constrains the response by [responseSchema]. *)
Module FixedSchema.

Definition responseSchema : Schema :=
  {| properties := ["row"; "J"; "K"; "L"];
     required := ["row"; "J"; "K"; "L"] |}.

Definition request (base64Image : option string) (mimeType : string) : Request :=
  {| model := "gemini-2.5-flash";
     text := ColumnsJKLPrompt;
     inlineData_data := base64Image;
     inlineData_mimeType := mimeType;
     responseMimeType := "application/json";
     responseSchema_ := Some responseSchema |}.

Definition on_error (error : Thrown) : Eff Json :=
  (emit (ConsoleError Messages.extracting_failed) ;;;
   match error with
   | ErrorObj message => throw (ErrorObj (Messages.failed_prefix ++ message))
   | NonError _ => throw (ErrorObj Messages.unknown_error)
   end)%eff.

Definition extractDataFromImage (rt : Runtime) (ai : option GoogleGenAI)
    (base64Image : option string) (mimeType : string) : Eff Json :=
  match ai with
  | None => throw (ErrorObj Messages.not_configured)
  | Some client =>
      try_catch
        (response_text <- models_generateContent rt client (request base64Image mimeType) ;;
         let jsonText := trim response_text in
         data <- parse rt jsonText ;;
         ret data)%eff
        on_error
  end.

End FixedSchema.

(** The revision that lets the model find the headers. *)
Module DynamicHeader.

Definition request (base64Image : option string) (mimeType : string) : Request :=
  {| model := "gemini-2.5-flash";
     text := IdentifyHeadersPrompt;
     inlineData_data := base64Image;
     inlineData_mimeType := mimeType;
     responseMimeType := "application/json";
     responseSchema_ := None |}.

Definition on_error (error : Thrown) : Eff Json :=
  (emit (ConsoleError Messages.extracting_failed) ;;;
   match error with
   | ErrorObj message =>
       if includes "JSON" message
       then throw (ErrorObj Messages.unexpected_format)
       else throw (ErrorObj (Messages.failed_prefix ++ message))
   | NonError _ => throw (ErrorObj Messages.unknown_error)
   end)%eff.

Definition extractDataFromImage (rt : Runtime) (ai : option GoogleGenAI)
    (base64Image : option string) (mimeType : string) : Eff Json :=
  match ai with
  | None => throw (ErrorObj Messages.not_configured)
  | Some client =>
      try_catch
        (response_text <- models_generateContent rt client (request base64Image mimeType) ;;
         let jsonText := trim response_text in
         data <- parse rt jsonText ;;
         ret data)%eff
        on_error
  end.

End DynamicHeader.

(** The two revisions side by side. *)
Inductive Revision : Type :=
| FixedSchemaRevision
| DynamicHeaderRevision.

Definition request_of (r : Revision) : option string -> string -> Request :=
  match r with
  | FixedSchemaRevision => FixedSchema.request
  | DynamicHeaderRevision => DynamicHeader.request
  end.

Definition extractDataFromImage_of (r : Revision)
  : Runtime -> option GoogleGenAI -> option string -> string -> Eff Json :=
  match r with
  | FixedSchemaRevision => FixedSchema.extractDataFromImage
  | DynamicHeaderRevision => DynamicHeader.extractDataFromImage
  end.

(** Unfolds a call of either revision down to the platform calls. *)
Ltac unfold_extract :=
  cbn [extractDataFromImage_of request_of] in *;
  unfold FixedSchema.extractDataFromImage, DynamicHeader.extractDataFromImage,
    FixedSchema.on_error, DynamicHeader.on_error,
    try_catch, bind, emit, throw, ret, models_generateContent, parse.

(** Splits on the test of the dynamic-header [catch]. *)
Ltac split_on_includes :=
  try match goal with
      | |- context [includes ?p ?m] => destruct (includes p m)
      end.

(** What is thrown inside the [try] of [extractDataFromImage], if
    anything: the rejection of the remote call, or the [SyntaxError] of
    [JSON.parse] on the trimmed response text. *)
Definition raised_in_try (rt : Runtime) (key : string) (log : Log) (req : Request)
  : option Thrown :=
  match generateContent rt key log req with
  | inl e => Some e
  | inr response_text =>
      match JSON_parse rt (trim response_text) with
      | inl message => Some (ErrorObj message)
      | inr _ => None
      end
  end.

(* ===================================================================== *)
(** ** App.tsx: image encoder and view controller *)
(* ===================================================================== *)

Module App.

(** [fileToBase64]: the promise resolves with [result.split(',')[1]]
    ([undefined] when the result has no comma) on [onload], and rejects
    with the event on [onerror]. *)
Definition fileToBase64 (rt : Runtime) (file : File) : Eff (option string) :=
  (emit (FileRead (name file)) ;;;
   match readAsDataURL rt file with
   | Loaded result => ret (index (split comma result) 1)
   | ReadFailed event => throw (NonError event)
   end)%eff.

(** The component state, one field per [useState]. *)
Record State : Type := {
  imageFile : option File;
  imageDataUrl : option string;
  extractedData : option Json;
  isLoading : bool;
  error : option string;
  configError : option string
}.

Definition initial : State :=
  {| imageFile := None; imageDataUrl := None; extractedData := None;
     isLoading := false; error := None; configError := None |}.

Definition setImageFile (v : option File) (st : State) : State :=
  {| imageFile := v; imageDataUrl := imageDataUrl st; extractedData := extractedData st;
     isLoading := isLoading st; error := error st; configError := configError st |}.
Definition setImageDataUrl (v : option string) (st : State) : State :=
  {| imageFile := imageFile st; imageDataUrl := v; extractedData := extractedData st;
     isLoading := isLoading st; error := error st; configError := configError st |}.
Definition setExtractedData (v : option Json) (st : State) : State :=
  {| imageFile := imageFile st; imageDataUrl := imageDataUrl st; extractedData := v;
     isLoading := isLoading st; error := error st; configError := configError st |}.
Definition setIsLoading (v : bool) (st : State) : State :=
  {| imageFile := imageFile st; imageDataUrl := imageDataUrl st; extractedData := extractedData st;
     isLoading := v; error := error st; configError := configError st |}.
Definition setError (v : option string) (st : State) : State :=
  {| imageFile := imageFile st; imageDataUrl := imageDataUrl st; extractedData := extractedData st;
     isLoading := isLoading st; error := v; configError := configError st |}.
Definition setConfigError (v : option string) (st : State) : State :=
  {| imageFile := imageFile st; imageDataUrl := imageDataUrl st; extractedData := extractedData st;
     isLoading := isLoading st; error := error st; configError := v |}.

(** Statements run one after the other. *)
Definition seq (steps : list (State -> State)) (st : State) : State :=
  fold_left (fun s f => f s) steps st.

(** The mount effect: [if (!isApiConfigured()) setConfigError(...)]. *)
Definition useEffect_mount (ai : option GoogleGenAI) (st : State) : State :=
  if negb (isApiConfigured ai)
  then setConfigError (Some Messages.config_error) st
  else st.

Definition accepted_type (t : string) : bool :=
  String.eqb t "image/jpeg" || String.eqb t "image/jpg" || String.eqb t "image/png".

(** [handleFileChange]; the argument is [event.target.files?.[0]]. *)
Definition handleFileChange (rt : Runtime) (file0 : option File) (st : State) : State :=
  let st := setError None st in
  match file0 with
  | Some file =>
      if accepted_type (type file)
      then seq [setImageFile (Some file);
                setImageDataUrl (Some (createObjectURL rt file));
                setExtractedData None] st
      else seq [setError (Some Messages.invalid_file);
                setImageFile None;
                setImageDataUrl None] st
  | None =>
      seq [setError (Some Messages.invalid_file);
           setImageFile None;
           setImageDataUrl None] st
  end.

(** The message the [catch] of [handleExtractData] shows. *)
Definition shown_message (err : Thrown) : string :=
  match err with
  | ErrorObj message => message
  | NonError _ => Messages.unexpected_error
  end.

Section Handlers.

(** The service module that [App.tsx] imports: either revision. *)
Variable extractDataFromImage :
  Runtime -> option GoogleGenAI -> option string -> string -> Eff Json.
Variable rt : Runtime.

(** The statements of [handleExtractData] before its [try]. When the
    handler returns early the second component is [None], otherwise
    it is the file the handler goes on with. *)
Definition handleExtractData_enter (st : State) : State * option File :=
  if truthy (configError st) then (st, None)
  else match imageFile st with
       | None => (setError (Some Messages.no_image) st, None)
       | Some file =>
           (seq [setIsLoading true; setError None; setExtractedData None] st,
            Some file)
       end.

(** The body of the [try]; [ai] is the handle of the service module. *)
Definition extraction (ai : option GoogleGenAI) (file : File) : Eff Json :=
  (base64Image <- fileToBase64 rt file ;;
   data <- extractDataFromImage rt ai base64Image (type file) ;;
   ret data)%eff.

(** [try] / [catch] / [finally] once the awaited calls have settled. *)
Definition handleExtractData_settle (outcome : Thrown + Json) (st : State) : State :=
  let st :=
    match outcome with
    | inr data => setExtractedData (Some data) st
    | inl err => setError (Some (shown_message err)) st
    end in
  setIsLoading false st.

(** [handleExtractData], run to completion. *)
Definition handleExtractData (ai : option GoogleGenAI) (log : Log) (st : State)
  : Log * State :=
  match handleExtractData_enter st with
  | (st1, None) => (log, st1)
  | (st1, Some file) =>
      let (log', outcome) := extraction ai file log in
      (log', handleExtractData_settle outcome st1)
  end.

(** A session: the handle of the service module, the effects so far
    and the component state. *)
Record Session : Type := {
  handle : option GoogleGenAI;
  effects : Log;
  view : State
}.

(** Loading the page: the service module initialises, the component
    mounts and its mount effect runs. *)
Definition startup (env_API_KEY : option string) : Session :=
  let (ai, log) := init_service env_API_KEY in
  {| handle := ai; effects := log; view := useEffect_mount ai initial |}.

(** What the user can do afterwards: choose a file, or click the extract
    button. The download button reads the state and writes none of it.
    A click is taken here together with the settlement of the calls it
    awaits; [Interleaved] below takes the two apart. *)
Inductive Event : Type :=
| SelectFile (file0 : option File)
| ClickExtract.

Definition step (s : Session) (ev : Event) : Session :=
  match ev with
  | SelectFile file0 =>
      {| handle := handle s; effects := effects s;
         view := handleFileChange rt file0 (view s) |}
  | ClickExtract =>
      let (log', st') := handleExtractData (handle s) (effects s) (view s) in
      {| handle := handle s; effects := log'; view := st' |}
  end.

Definition run (s : Session) (evs : list Event) : Session :=
  fold_left step evs s.

End Handlers.

End App.

(* ===================================================================== *)
(** ** A reference instance of the platform *)
(* ===================================================================== *)

(** A JSON parser to evaluate the program on concrete response texts. The
    general statements below hold for every [Runtime]; this instance only
    supplies concrete runs. Its messages are the two an engine of the V8
    family reports. String characters are 8-bit here, so an escape that
    denotes a code unit above 255 is refused. *)
Module RefJson.

Inductive Failure : Type :=
| EndOfInput
| Token (rest : string).

Definition Res (A : Type) : Type := (Failure + A * string)%type.

Definition is_ws (c : ascii) : bool :=
  let n := nat_of_ascii c in
  (n =? 32)%nat || (n =? 9)%nat || (n =? 10)%nat || (n =? 13)%nat.

Fixpoint skip_ws (s : string) : string :=
  match s with
  | String c r => if is_ws c then skip_ws r else s
  | EmptyString => s
  end.

Definition digit (c : ascii) : option nat :=
  let n := nat_of_ascii c in
  if ((48 <=? n) && (n <=? 57))%nat then Some (n - 48) else None.

Definition hex (c : ascii) : option nat :=
  let n := nat_of_ascii c in
  if ((48 <=? n) && (n <=? 57))%nat then Some (n - 48)
  else if ((65 <=? n) && (n <=? 70))%nat then Some (n - 55)
  else if ((97 <=? n) && (n <=? 102))%nat then Some (n - 87)
  else None.

(** The rest of the text after the word [w], read character by
    character. *)
Fixpoint expect_word (w s : string) : Failure + string :=
  match w, s with
  | EmptyString, _ => inr s
  | String _ _, EmptyString => inl EndOfInput
  | String a w', String b s' =>
      if Ascii.eqb a b then expect_word w' s' else inl (Token s)
  end.

Definition escape (c : ascii) : option ascii :=
  if Ascii.eqb c dquote then Some dquote
  else if Ascii.eqb c "\" then Some "\"%char
  else if Ascii.eqb c "/" then Some "/"%char
  else if Ascii.eqb c "b" then Some "008"%char
  else if Ascii.eqb c "f" then Some "012"%char
  else if Ascii.eqb c "n" then Some "010"%char
  else if Ascii.eqb c "r" then Some "013"%char
  else if Ascii.eqb c "t" then Some "009"%char
  else None.

(** The characters of a string literal after its opening quote. *)
Fixpoint string_body (s : string) : Res string :=
  match s with
  | EmptyString => inl EndOfInput
  | String c r =>
      if Ascii.eqb c dquote then inr (EmptyString, r)
      else if Ascii.eqb c "\" then
        match r with
        | EmptyString => inl EndOfInput
        | String e r1 =>
            if Ascii.eqb e "u" then
              match r1 with
              | String h1 (String h2 (String h3 (String h4 r2))) =>
                  match hex h1, hex h2, hex h3, hex h4 with
                  | Some 0, Some 0, Some a, Some b =>
                      match string_body r2 with
                      | inl f => inl f
                      | inr (body, rest) =>
                          inr (String (ascii_of_nat (16 * a + b)) body, rest)
                      end
                  | _, _, _, _ => inl (Token r1)
                  end
              | _ => inl EndOfInput
              end
            else
              match escape e with
              | None => inl (Token r)
              | Some c' =>
                  match string_body r1 with
                  | inl f => inl f
                  | inr (body, rest) => inr (String c' body, rest)
                  end
              end
        end
      else if (nat_of_ascii c <? 32)%nat then inl (Token s)
      else
        match string_body r with
        | inl f => inl f
        | inr (body, rest) => inr (String c body, rest)
        end
  end.

(** The leading decimal digits: their value, how many, and the rest. *)
Fixpoint digits (s : string) (acc : Z) (count : nat) : Z * nat * string :=
  match s with
  | EmptyString => (acc, count, s)
  | String c r =>
      match digit c with
      | Some d => digits r (10 * acc + Z.of_nat d)%Z (S count)
      | None => (acc, count, s)
      end
  end.

Definition at_least_one_digit (s : string) : Res (Z * nat) :=
  match s with
  | EmptyString => inl EndOfInput
  | String c _ =>
      match digit c with
      | None => inl (Token s)
      | Some _ => let '(v, n, rest) := digits s 0%Z 0 in inr ((v, n), rest)
      end
  end.

(** A number literal without its sign. *)
Definition unsigned_number (s : string) : Res (Z * Z) :=
  let int_part :=
    match s with
    | String "0" r => inr ((0%Z, 1), r)
    | _ => at_least_one_digit s
    end in
  match int_part with
  | inl f => inl f
  | inr ((i, _), r) =>
      let frac_part :=
        match r with
        | String "." r1 =>
            match at_least_one_digit r1 with
            | inl f => inl f
            | inr ((_, n), _) =>
                let '(v, _, rest) := digits r1 i 0 in inr ((v, n), rest)
            end
        | _ => inr ((i, 0), r)
        end in
      match frac_part with
      | inl f => inl f
      | inr ((m, n), r2) =>
          let with_exp (negative : bool) (r3 : string) :=
            match at_least_one_digit r3 with
            | inl f => inl f
            | inr ((e, _), rest) =>
                inr ((m, ((if negative then - e else e) - Z.of_nat n)%Z), rest)
            end in
          match r2 with
          | String c r3 =>
              if Ascii.eqb c "e" || Ascii.eqb c "E" then
                match r3 with
                | String "+" r4 => with_exp false r4
                | String "-" r4 => with_exp true r4
                | _ => with_exp false r3
                end
              else inr ((m, (- Z.of_nat n)%Z), r2)
          | EmptyString => inr ((m, (- Z.of_nat n)%Z), r2)
          end
      end
  end.

(** A later member with the same key replaces the value of the earlier
    one, in its place. *)
Fixpoint set_member (k : string) (v : Json) (members : list (string * Json))
  : list (string * Json) :=
  match members with
  | [] => [(k, v)]
  | (k', v') :: rest =>
      if String.eqb k' k then (k', v) :: rest else (k', v') :: set_member k v rest
  end.

Section Loops.
Variable value : string -> Res Json.

(** Array elements after the opening bracket, the array not empty. *)
Fixpoint elements (fuel : nat) (s : string) (acc : list Json) : Res (list Json) :=
  match fuel with
  | 0 => inl EndOfInput
  | S fuel' =>
      match value s with
      | inl f => inl f
      | inr (v, r) =>
          match skip_ws r with
          | EmptyString => inl EndOfInput
          | String c r1 =>
              if Ascii.eqb c "," then elements fuel' r1 (acc ++ [v])
              else if Ascii.eqb c "]" then inr (acc ++ [v], r1)
              else inl (Token (String c r1))
          end
      end
  end.

(** Object members after the opening brace, the object not empty. *)
Fixpoint members (fuel : nat) (s : string) (acc : list (string * Json))
  : Res (list (string * Json)) :=
  match fuel with
  | 0 => inl EndOfInput
  | S fuel' =>
      match skip_ws s with
      | EmptyString => inl EndOfInput
      | String q r =>
          if negb (Ascii.eqb q dquote) then inl (Token (String q r))
          else
            match string_body r with
            | inl f => inl f
            | inr (k, r1) =>
                match skip_ws r1 with
                | EmptyString => inl EndOfInput
                | String c r2 =>
                    if negb (Ascii.eqb c ":") then inl (Token (String c r2))
                    else
                      match value r2 with
                      | inl f => inl f
                      | inr (v, r3) =>
                          match skip_ws r3 with
                          | EmptyString => inl EndOfInput
                          | String d r4 =>
                              if Ascii.eqb d ","
                              then members fuel' r4 (set_member k v acc)
                              else if Ascii.eqb d "}"
                              then inr (set_member k v acc, r4)
                              else inl (Token (String d r4))
                          end
                      end
                end
            end
      end
  end.
End Loops.

Definition lift {A B} (f : A -> B) (r : Res A) : Res B :=
  match r with
  | inl e => inl e
  | inr (a, rest) => inr (f a, rest)
  end.

Fixpoint value (fuel : nat) (s : string) : Res Json :=
  match fuel with
  | 0 => inl EndOfInput
  | S fuel' =>
      match skip_ws s with
      | EmptyString => inl EndOfInput
      | String c r =>
          if Ascii.eqb c "[" then
            match skip_ws r with
            | String "]" r1 => inr (JArray [], r1)
            | _ => lift JArray (elements (value fuel') fuel' r [])
            end
          else if Ascii.eqb c "{" then
            match skip_ws r with
            | String "}" r1 => inr (JObject [], r1)
            | _ => lift JObject (members (value fuel') fuel' r [])
            end
          else if Ascii.eqb c dquote then lift JString (string_body r)
          else if Ascii.eqb c "-" then
            lift (fun me => JNumber (- fst me) (snd me)) (unsigned_number r)
          else if Ascii.eqb c "t" then
            match expect_word "true" (String c r) with
            | inl f => inl f
            | inr rest => inr (JBool true, rest)
            end
          else if Ascii.eqb c "f" then
            match expect_word "false" (String c r) with
            | inl f => inl f
            | inr rest => inr (JBool false, rest)
            end
          else if Ascii.eqb c "n" then
            match expect_word "null" (String c r) with
            | inl f => inl f
            | inr rest => inr (JNull, rest)
            end
          else
            match digit c with
            | Some _ => lift (fun me => JNumber (fst me) (snd me)) (unsigned_number (String c r))
            | None => inl (Token (String c r))
            end
      end
  end.

Definition decimal (n : nat) : string := NilEmpty.string_of_uint (Nat.to_uint n).

(** The message of the [SyntaxError]. *)
Definition message (input : string) (f : Failure) : string :=
  match f with
  | EndOfInput => "Unexpected end of JSON input"
  | Token EmptyString => "Unexpected end of JSON input"
  | Token (String c rest) =>
      "Unexpected token " ++ str1 c ++ " in JSON at position "
        ++ decimal (String.length input - S (String.length rest))
  end.

Definition parse (s : string) : string + Json :=
  match value (S (String.length s)) s with
  | inl f => inl (message s f)
  | inr (v, rest) =>
      match skip_ws rest with
      | EmptyString => inr v
      | trailing => inl (message s (Token trailing))
      end
  end.

End RefJson.

(** A platform with the reference parser, a service that always ends the
    same way, and a reader that always ends the same way. *)
Definition scripted (reply : Thrown + string) (read : ReadOutcome) : Runtime :=
  {| JSON_parse := RefJson.parse;
     generateContent := fun _ _ _ => reply;
     readAsDataURL := fun _ => read;
     createObjectURL := fun file => ("blob:" ++ name file)%string |}.

(** Concrete inputs for the runs below. *)
Module Sample.

Definition q : string := str1 dquote.

(** The text of two rows with different keys, the second with a number
    as value, surrounded by white space. *)
Definition uneven_rows_text : string :=
  "  [{" ++ q ++ "a" ++ q ++ ":" ++ q ++ "1" ++ q ++ "},{" ++ q ++ "b" ++ q ++ ":2}] ".

Definition uneven_rows : Json :=
  JArray [JObject [("a", JString "1")]; JObject [("b", JNumber 2 0)]].

Definition client : GoogleGenAI := {| apiKey := "key" |}.

Definition png : File := {| name := "table.png"; type := "image/png" |}.
Definition notes : File := {| name := "notes.txt"; type := "text/plain" |}.

(** A view that shows the result of an earlier extraction of [png]. *)
Definition reviewed : App.State :=
  {| App.imageFile := Some png;
     App.imageDataUrl := Some "blob:table.png";
     App.extractedData := Some (JArray [JObject [("row", JString "1")]]);
     App.isLoading := false;
     App.error := None;
     App.configError := None |}.

End Sample.

(* ===================================================================== *)
(** ** The serialiser and the encoder in the words of the specification *)
(* ===================================================================== *)

Module Spec.

(** The text of a value that is a string, the empty string otherwise. *)
Definition text_of (v : Value) : string :=
  match v with
  | Str s => s
  | _ => EmptyString
  end.

(** Embedded double quotes are escaped by doubling. *)
Fixpoint double_quotes (s : string) : string :=
  match s with
  | EmptyString => EmptyString
  | String c rest =>
      if Ascii.eqb c dquote
      then String dquote (String dquote (double_quotes rest))
      else String c (double_quotes rest)
  end.

(** Each value is wrapped in double quotes. *)
Definition quoted (v : string) : string :=
  String dquote (double_quotes v ++ str1 dquote).

(** The value of a cell: the one under the key, the empty string when
    the row has no such key. *)
Definition value_of (row : TableRow) (key : string) : string :=
  match own row key with
  | Some v => v
  | None => EmptyString
  end.

(** The line of a row: its values under the headers, each quoted, with
    commas between them. *)
Definition row_text (headers : list string) (row : TableRow) : string :=
  join (str1 comma) (map (fun header => quoted (value_of row header)) headers).

(** The whole text: the header line and the lines of the rows, with
    line feeds between them. *)
Definition csv_text (first : TableRow) (rest : ExtractedData) : string :=
  join (str1 newline)
    (join (str1 comma) (Object_keys first)
       :: map (row_text (Object_keys first)) (first :: rest)).




(** Neither a comma nor a line feed occurs. *)
Definition plain (s : string) : bool :=
  negb (occurs comma s) && negb (occurs newline s).

(** The field-count property: the first line of the output, split on
    commas, has as many fields as row 0 has keys, and so has every
    later line. *)
Definition field_counts_agree (data : ExtractedData) : Prop :=
  match data with
  | [] => True
  | first :: _ =>
      match Csv.convertToCsv (Some data) with
      | Csv.TypeError => False
      | Csv.Normal output =>
          match split newline output with
          | [] => False
          | header_line :: lines =>
              length (split comma header_line) = length (Object_keys first) /\
              Forall (fun line => length (split comma line) = length (Object_keys first))
                lines
          end
      end
  end.

(** The shape [ExtractedData] promises: an array of objects whose
    values are all strings, every row with the keys of the first. *)
Definition is_row (j : Json) : bool :=
  match j with
  | JObject members =>
      forallb (fun kv => match snd kv with JString _ => true | _ => false end) members
  | _ => false
  end.

Definition keys_of (j : Json) : list string :=
  match j with
  | JObject members => map fst members
  | _ => []
  end.

Definition subset (a b : list string) : bool :=
  forallb (fun k => existsb (String.eqb k) b) a.

Definition same_keys (a b : Json) : bool :=
  subset (keys_of a) (keys_of b) && subset (keys_of b) (keys_of a).

Definition is_ExtractedData (j : Json) : bool :=
  match j with
  | JArray rows =>
      forallb is_row rows &&
      match rows with
      | [] => true
      | first :: rest => forallb (same_keys first) rest
      end
  | _ => false
  end.

(** The error classification as the specification words it: a response
    text that does not parse gives the fixed unexpected-format message,
    and any other failure of the call gives the message of the
    underlying error behind the fixed prefix. A thrown value that is no
    [Error] has no message to wrap, and nothing is asked there. *)
Definition classifies_as_specified (r : Revision) (rt : Runtime)
    (client : GoogleGenAI) (base64Image : option string) (mimeType : string)
    (log : Log) : Prop :=
  let thrown :=
    snd (extractDataFromImage_of r rt (Some client) base64Image mimeType log) in
  match generateContent rt (apiKey client) log (request_of r base64Image mimeType) with
  | inr response_text =>
      match JSON_parse rt (trim response_text) with
      | inl _ => thrown = inl (ErrorObj Messages.unexpected_format)
      | inr _ => True
      end
  | inl (ErrorObj message) =>
      thrown = inl (ErrorObj (Messages.failed_prefix ++ message))
  | inl (NonError _) => True
  end.


(** A data URL with a base64 payload. *)
Definition data_url (mediatype payload : string) : string :=
  "data:" ++ mediatype ++ ";base64," ++ payload.

(** The characters of the base64 alphabet and its padding. *)
Definition base64_char (c : ascii) : bool :=
  let n := nat_of_ascii c in
  ((65 <=? n) && (n <=? 90))%nat || ((97 <=? n) && (n <=? 122))%nat
  || ((48 <=? n) && (n <=? 57))%nat || (n =? 43)%nat || (n =? 47)%nat || (n =? 61)%nat.

Fixpoint base64_text (s : string) : bool :=
  match s with
  | EmptyString => true
  | String c rest => base64_char c && base64_text rest
  end.

(** Everything up to and including the first comma removed; [None]
    when there is no comma. *)
Fixpoint after_first_comma (s : string) : option string :=
  match s with
  | EmptyString => None
  | String c rest => if Ascii.eqb c comma then Some rest else after_first_comma rest
  end.

End Spec.

(* ===================================================================== *)
(** ** App.tsx: the table, the page and the download *)
(* ===================================================================== *)

Module View.

(** What [DataTable] returns: the header cells and, per row, the cells of
    the body; a cell holds [row[header]]. *)
Record Table : Type := {
  thead : list string;
  tbody : list (list Value)
}.

(** [DataTable]; on an empty array [Object.keys(data[0])] throws, which
    is [None]. *)
Definition DataTable (data : ExtractedData) : option Table :=
  match data with
  | [] => None
  | first :: _ =>
      let headers := Object_keys first in
      Some {| thead := headers;
              tbody := map (fun row => map (fun header => get row header) headers) data |}
  end.

(** A place of the page that holds a component. *)
Inductive Slot (A : Type) : Type :=
| Absent
| Present (a : A)
| Crashed.

Arguments Absent {A}.
Arguments Present {A} a.
Arguments Crashed {A}.

(** What [App] returns, as far as it depends on the state. *)
Record Page : Type := {
  file_input_disabled : bool;
  preview : option string;
  extract_button_disabled : bool;
  extract_button_spinner : bool;
  download_button_disabled : bool;
  loading_panel : bool;
  error_panel : option string;
  placeholder_panel : bool;
  data_table : Slot Table;
  no_data_panel : bool
}.

Definition is_some {A} (v : option A) : bool :=
  match v with
  | Some _ => true
  | None => false
  end.

(** [configError || error]. *)
Definition finalError (st : App.State) : option string :=
  if truthy (App.configError st) then App.configError st else App.error st.

(** [x && <jsx>] for a string or null [x]. *)
Definition when_truthy (v : option string) : option string :=
  if truthy v then v else None.

(** The [return] of [App]; [data] is [extractedData] at its declared
    type. *)
Definition render (st : App.State) (data : option ExtractedData) : Page :=
  {| file_input_disabled := truthy (App.configError st);
     preview := when_truthy (App.imageDataUrl st);
     extract_button_disabled :=
       negb (is_some (App.imageFile st)) || App.isLoading st || truthy (App.configError st);
     extract_button_spinner := App.isLoading st;
     download_button_disabled :=
       match data with
       | None => true
       | Some rows => (length rows =? 0)%nat
       end;
     loading_panel := App.isLoading st;
     error_panel := when_truthy (finalError st);
     placeholder_panel :=
       negb (App.isLoading st) && negb (truthy (finalError st)) && negb (is_some data);
     data_table :=
       match data with
       | Some rows =>
           if (0 <? length rows)%nat
           then match DataTable rows with
                | Some table => Present table
                | None => Crashed
                end
           else Absent
       | None => Absent
       end;
     no_data_panel :=
       match data with
       | Some rows => (length rows =? 0)%nat
       | None => false
       end |}.

End View.

Module Download.

(** A file the browser saved. *)
Record Saved : Type := {
  filename : string;
  mime : string;
  content : string
}.

(** The document as [downloadCsv] touches it: the children of the body
    by node number, the number of the next node made, the contents of
    the blobs that have an object URL, and the files saved so far. *)
Record Document : Type := {
  body : list nat;
  next_node : nat;
  object_urls : list string;
  saved : list Saved
}.

Definition createElement (doc : Document) : nat * Document :=
  (next_node doc,
   {| body := body doc; next_node := S (next_node doc);
      object_urls := object_urls doc; saved := saved doc |}).

Definition URL_createObjectURL (blob_content : string) (doc : Document) : Document :=
  {| body := body doc; next_node := next_node doc;
     object_urls := object_urls doc ++ [blob_content]; saved := saved doc |}.

Definition appendChild (node : nat) (doc : Document) : Document :=
  {| body := body doc ++ [node]; next_node := next_node doc;
     object_urls := object_urls doc; saved := saved doc |}.

Definition removeChild (node : nat) (doc : Document) : Document :=
  {| body := remove Nat.eq_dec node (body doc); next_node := next_node doc;
     object_urls := object_urls doc; saved := saved doc |}.

(** A click on a link with a [download] attribute and a blob URL. *)
Definition click (file : Saved) (doc : Document) : Document :=
  {| body := body doc; next_node := next_node doc;
     object_urls := object_urls doc; saved := saved doc ++ [file] |}.

(** [downloadCsv]; [supports_download] is [link.download !== undefined].
    When [convertToCsv] throws, nothing has touched the document yet. *)
Definition downloadCsv (supports_download : bool) (data : option ExtractedData)
    (doc : Document) : Csv.Completion Document :=
  match data with
  | None => Csv.Normal doc
  | Some [] => Csv.Normal doc
  | Some (first :: rest) =>
      match Csv.convertToCsv data with
      | Csv.TypeError => Csv.TypeError
      | Csv.Normal csvString =>
          let blob_type := "text/csv;charset=utf-8;" in
          let (link, doc) := createElement doc in
          if supports_download then
            let doc := URL_createObjectURL csvString doc in
            let doc := appendChild link doc in
            let doc := click {| filename := "extracted_data.csv";
                                mime := blob_type;
                                content := csvString |} doc in
            Csv.Normal (removeChild link doc)
          else Csv.Normal doc
      end
  end.

(** [handleDownload]. *)
Definition handleDownload (supports_download : bool) (data : option ExtractedData)
    (doc : Document) : Csv.Completion Document :=
  match data with
  | Some rows => downloadCsv supports_download (Some rows) doc
  | None => Csv.Normal doc
  end.

End Download.

(** ** Reading quoted records back *)

(** A reader for what the data lines are written in: records of quoted
    fields, a comma between fields, a line feed between records, two
    double quotes inside a field standing for one. *)
Module Rfc4180.

(** After the opening quote: the value of the field and the text after
    its closing quote. *)
Fixpoint quoted_field (s : string) : option (string * string) :=
  match s with
  | EmptyString => None
  | String c rest =>
      if Ascii.eqb c dquote then
        match rest with
        | EmptyString => Some (EmptyString, EmptyString)
        | String d rest' =>
            if Ascii.eqb d dquote then
              match quoted_field rest' with
              | Some (v, tail) => Some (String dquote v, tail)
              | None => None
              end
            else Some (EmptyString, rest)
        end
      else
        match quoted_field rest with
        | Some (v, tail) => Some (String c v, tail)
        | None => None
        end
  end.

(** The records of a text, at most [fuel] fields. *)
Fixpoint records (fuel : nat) (s : string) : option (list (list string)) :=
  match fuel with
  | 0 => None
  | S fuel' =>
      match s with
      | EmptyString => None
      | String c rest =>
          if negb (Ascii.eqb c dquote) then None
          else
            match quoted_field rest with
            | None => None
            | Some (v, EmptyString) => Some [[v]]
            | Some (v, String d tail) =>
                if Ascii.eqb d comma then
                  match records fuel' tail with
                  | Some (record :: others) => Some ((v :: record) :: others)
                  | _ => None
                  end
                else if Ascii.eqb d newline then
                  match records fuel' tail with
                  | Some others => Some ([v] :: others)
                  | None => None
                  end
                else None
            end
      end
  end.

(** Every field takes at least two characters. *)
Definition read (s : string) : option (list (list string)) :=
  records (String.length s) s.

(** The same records written out. *)
Definition write (recs : list (list string)) : string :=
  join (str1 newline) (map (fun fields => join (str1 comma) (map Spec.quoted fields)) recs).

End Rfc4180.

(** The handlers with the awaits taken apart. A click runs
    [handleExtractData] up to its first [await]; when it goes past the
    guards an extraction is in flight. The settlement of an extraction
    in flight runs the [catch] or the statement after the awaited calls,
    and the [finally]. A selection may come in between, since only the
    configuration error disables the file input. Any event may come at
    any time and an extraction may settle with any outcome, which covers
    every order the browser can produce. *)
Module Interleaved.

Inductive Event : Type :=
| Select (file0 : option File)
| Click
| Settle (outcome : Thrown + Json).

Record Session : Type := {
  view : App.State;
  in_flight : nat
}.

(** The page after the mount effect. *)
Definition start (ai : option GoogleGenAI) : Session :=
  {| view := App.useEffect_mount ai App.initial; in_flight := 0 |}.

Definition step (rt : Runtime) (s : Session) (ev : Event) : Session :=
  match ev with
  | Select file0 =>
      {| view := App.handleFileChange rt file0 (view s); in_flight := in_flight s |}
  | Click =>
      match App.handleExtractData_enter (view s) with
      | (st, Some _) => {| view := st; in_flight := S (in_flight s) |}
      | (st, None) => {| view := st; in_flight := in_flight s |}
      end
  | Settle outcome =>
      match in_flight s with
      | 0 => s
      | S others =>
          {| view := App.handleExtractData_settle outcome (view s); in_flight := others |}
      end
  end.

Definition run (rt : Runtime) (s : Session) (evs : list Event) : Session :=
  fold_left (step rt) evs s.

End Interleaved.

(** [unfold_extract] in a hypothesis. *)
Ltac unfold_extract_in H :=
  cbn [extractDataFromImage_of request_of] in H;
  unfold FixedSchema.extractDataFromImage, DynamicHeader.extractDataFromImage,
    FixedSchema.on_error, DynamicHeader.on_error,
    try_catch, bind, emit, throw, ret, models_generateContent, parse in H.

Ltac split_on_includes_in H :=
  try match type of H with
      | context [includes ?p ?m] => destruct (includes p m)
      end.

(** What holds of the component state between two events when every
    handler runs to completion: the selected image has an accepted type
    and nothing is loading. *)
Definition settled (rt : Runtime) (st : App.State) : Prop :=
  (forall file, App.imageFile st = Some file -> App.accepted_type (type file) = true) /\
  App.isLoading st = false.


(** A call made for the credential [key] by revision [r]: it carries
    that key, and its request is the one the revision builds for some
    payload and an accepted image type. *)
Definition call_of_session (r : Revision) (key : option string)
    (call : string * Request) : Prop :=
  key = Some (fst call) /\
  App.accepted_type (inlineData_mimeType (snd call)) = true /\
  snd call = request_of r (inlineData_data (snd call)) (inlineData_mimeType (snd call)).

(** The network calls of a log, oldest first. *)
Fixpoint network_calls (log : Log) : list (string * Request) :=
  match log with
  | [] => []
  | NetworkCall key req :: rest => (key, req) :: network_calls rest
  | _ :: rest => network_calls rest
  end.

(* ===================================================================== *)
(** * Properties *)
(* ===================================================================== *)

(** ** Strings *)

Lemma append_nil_r (s : string) : (s ++ EmptyString)%string = s.
Proof. induction s as [|c s IH]; simpl; now rewrite ?IH. Qed.

Lemma append_assoc (a b c : string) : ((a ++ b) ++ c = a ++ (b ++ c))%string.
Proof. induction a as [|x a IH]; simpl; now rewrite ?IH. Qed.

Lemma occurs_app (c : ascii) (a b : string) :
  occurs c (a ++ b) = occurs c a || occurs c b.
Proof.
  induction a as [|x a IH]; simpl; [reflexivity|].
  now rewrite IH, orb_assoc.
Qed.

Lemma split_nonempty (sep : ascii) (s : string) : split sep s <> [].
Proof.
  destruct s as [|c s]; simpl; [discriminate|].
  destruct (Ascii.eqb c sep); [discriminate|].
  destruct (split sep s); discriminate.
Qed.

(** Without the separator there is one field. *)
Lemma split_without (sep : ascii) (s : string) :
  occurs sep s = false -> split sep s = [s].
Proof.
  induction s as [|c s IH]; simpl; [reflexivity|].
  intros H. apply orb_false_elim in H as [Hc Hs].
  rewrite Hc, (IH Hs). reflexivity.
Qed.

(** A field without the separator, then the separator. *)
Lemma split_field (sep : ascii) (x rest : string) :
  occurs sep x = false ->
  split sep (x ++ String sep rest) = x :: split sep rest.
Proof.
  induction x as [|c x IH]; simpl; intros H.
  - now rewrite Ascii.eqb_refl.
  - apply orb_false_elim in H as [Hc Hx].
    rewrite Hc, (IH Hx). reflexivity.
Qed.

Lemma join_step (sep x y : string) (l : list string) :
  join sep (x :: y :: l) = (x ++ sep ++ join sep (y :: l))%string.
Proof. reflexivity. Qed.

(** [join] puts the separator before every element but the first. *)
Lemma join_cons (sep x : string) (l : list string) :
  join sep (x :: l)
  = (x ++ fold_right String.append EmptyString (map (String.append sep) l))%string.
Proof.
  revert x. induction l as [|y l IH]; intros x.
  - simpl. now rewrite append_nil_r.
  - rewrite join_step, IH. simpl. now rewrite append_assoc.
Qed.

(** Splitting what [join] made of separator-free fields gives them back. *)
Lemma split_join (sep : ascii) (x : string) (l : list string) :
  Forall (fun s => occurs sep s = false) (x :: l) ->
  split sep (join (str1 sep) (x :: l)) = x :: l.
Proof.
  revert x. induction l as [|y l IH]; intros x H.
  - simpl. apply split_without. now inversion H.
  - inversion H as [|? ? Hx Hl]; subst.
    change (join (str1 sep) (x :: y :: l))
      with (x ++ String sep (join (str1 sep) (y :: l)))%string.
    rewrite (split_field _ _ _ Hx). f_equal. exact (IH y Hl).
Qed.

Lemma occurs_join (c : ascii) (sep : string) (l : list string) :
  occurs c sep = false ->
  Forall (fun s => occurs c s = false) l ->
  occurs c (join sep l) = false.
Proof.
  intros Hsep. induction l as [|x l IH]; intros H; [reflexivity|].
  inversion H as [|? ? Hx Hl]; subst.
  destruct l as [|y l]; [exact Hx|].
  rewrite join_step, !occurs_app, Hx, Hsep, (IH Hl). reflexivity.
Qed.

Lemma occurs_replace_all (c d : ascii) (by_ s : string) :
  Ascii.eqb d c = false ->
  occurs c by_ = false ->
  occurs c (replace_all d by_ s) = occurs c s.
Proof.
  intros Hdc Hby. induction s as [|a s IH]; simpl; [reflexivity|].
  destruct (Ascii.eqb a d) eqn:Had.
  - apply Ascii.eqb_eq in Had. subst a.
    now rewrite occurs_app, Hby, IH, Hdc.
  - simpl. now rewrite IH.
Qed.

(** The global replacement of the program is the doubling of the
    specification. *)
Lemma replace_all_doubles (s : string) :
  replace_all dquote (String dquote (str1 dquote)) s = Spec.double_quotes s.
Proof.
  induction s as [|c s IH]; simpl; [reflexivity|].
  destruct (Ascii.eqb c dquote); simpl; now rewrite IH.
Qed.

(** ** CSV serialisation *)


(** *** Where the serialiser throws *)

Lemma is_member_get (row : TableRow) (header : string) :
  Csv.is_member (get row header)
  = match own row header with
    | Some _ => false
    | None => inherited header
    end.
Proof.
  unfold get. destruct (own row header); [reflexivity|].
  destruct (inherited header); reflexivity.
Qed.

(** A cell, case by case. *)
Lemma cell_cases (row : TableRow) (header : string) :
  Csv.cell row header
  = match own row header with
    | Some v => Csv.Normal (Spec.quoted v)
    | None =>
        if inherited header then Csv.TypeError
        else Csv.Normal (Spec.quoted EmptyString)
    end.
Proof.
  unfold Csv.cell, get, Spec.quoted.
  destruct (own row header) as [[|c v]|]; [| |destruct (inherited header)];
    cbn [Csv.or_empty Csv.replace_quotes]; rewrite ?replace_all_doubles; reflexivity.
Qed.

Lemma cell_text (row : TableRow) (header : string) :
  Csv.cell row header
  = if Csv.is_member (get row header) then Csv.TypeError
    else Csv.Normal (Spec.quoted (Spec.value_of row header)).
Proof.
  rewrite cell_cases, is_member_get. unfold Spec.value_of.
  destruct (own row header); [reflexivity|].
  destruct (inherited header); reflexivity.
Qed.

(** A map that throws on the elements that satisfy [p]. *)
Lemma map_throwing_cases {A B : Type} (p : A -> bool) (g : A -> B)
    (f : A -> Csv.Completion B) (l : list A) :
  (forall x, f x = if p x then Csv.TypeError else Csv.Normal (g x)) ->
  Csv.map_throwing f l = if existsb p l then Csv.TypeError else Csv.Normal (map g l).
Proof.
  intros Hf. induction l as [|x l IH]; [reflexivity|].
  cbn. rewrite Hf, IH. destruct (p x); [reflexivity|].
  destruct (existsb p l); reflexivity.
Qed.

Lemma row_line_cases (headers : list string) (row : TableRow) :
  Csv.row_line headers row
  = if Csv.reads_member headers row then Csv.TypeError
    else Csv.Normal (Spec.row_text headers row).
Proof.
  unfold Csv.row_line, Csv.reads_member, Spec.row_text.
  rewrite (map_throwing_cases (fun header => Csv.is_member (get row header))
             (fun header => Spec.quoted (Spec.value_of row header)));
    [|intros header; apply cell_text].
  destruct (existsb _ headers); reflexivity.
Qed.

Lemma convertToCsv_cases (first : TableRow) (rest : ExtractedData) :
  Csv.convertToCsv (Some (first :: rest))
  = if existsb (Csv.reads_member (Object_keys first)) (first :: rest)
    then Csv.TypeError
    else Csv.Normal (Spec.csv_text first rest).
Proof.
  unfold Csv.convertToCsv, Spec.csv_text.
  rewrite (map_throwing_cases (Csv.reads_member (Object_keys first))
             (Spec.row_text (Object_keys first)));
    [|intros row; apply row_line_cases].
  destruct (existsb _ (first :: rest)); reflexivity.
Qed.

(** *** The order of the keys *)

Lemma indexed_keys (keys : list string) :
  map snd (indexed keys) = filter is_array_index keys.
Proof.
  induction keys as [|key keys IH]; [reflexivity|].
  cbn [indexed filter]. unfold is_array_index at 1.
  destruct (array_index key); cbn; now rewrite IH.
Qed.

Lemma insert_ascending_perm (x : N * string) (l : list (N * string)) :
  Permutation (insert_ascending x l) (x :: l).
Proof.
  induction l as [|y l IH]; cbn; [reflexivity|].
  destruct (fst x <=? fst y)%N; [reflexivity|].
  rewrite IH. apply perm_swap.
Qed.

Lemma ascending_perm (l : list (N * string)) : Permutation (ascending l) l.
Proof.
  induction l as [|x l IH]; cbn; [reflexivity|].
  rewrite insert_ascending_perm. now constructor.
Qed.



Lemma filter_split_perm {A} (f : A -> bool) (l : list A) :
  Permutation (filter f l ++ filter (fun a => negb (f a)) l) l.
Proof.
  induction l as [|a l IH]; [reflexivity|].
  cbn. destruct (f a); cbn.
  - now constructor.
  - rewrite <- Permutation_middle. now constructor.
Qed.

(** [Object.keys] reorders the keys, it neither drops nor adds one. *)
Lemma Object_keys_perm (row : TableRow) :
  Permutation (Object_keys row) (map fst row).
Proof.
  unfold Object_keys.
  rewrite (Permutation_map snd (ascending_perm (indexed (map fst row)))).
  rewrite indexed_keys. apply filter_split_perm.
Qed.

Lemma Object_keys_length (row : TableRow) :
  length (Object_keys row) = length row.
Proof.
  rewrite (Permutation_length (Object_keys_perm row)). apply length_map.
Qed.




(** *** The first row reads its own properties *)

Lemma own_of_key (row : TableRow) (key : string) :
  In key (map fst row) -> own row key <> None.
Proof.
  induction row as [|[k v] row IH]; [contradiction|].
  cbn. destruct (String.eqb k key) eqn:E; [discriminate|].
  intros [Hk|Hin]; [|now apply IH].
  subst k. now rewrite String.eqb_refl in E.
Qed.

Lemma first_row_reads_own (first : TableRow) :
  Csv.reads_member (Object_keys first) first = false.
Proof.
  unfold Csv.reads_member.
  destruct (existsb _ (Object_keys first)) eqn:E; [|reflexivity].
  apply existsb_exists in E as [header [Hin Hm]].
  rewrite is_member_get in Hm.
  apply (Permutation_in _ (Object_keys_perm first)) in Hin.
  apply own_of_key in Hin. destruct (own first header); [discriminate|contradiction].
Qed.

(** [convertToCsv] throws exactly when a row after the first lacks a key
    of the first row that names a member of [Object.prototype]. *)
Lemma convertToCsv_returns (first : TableRow) (rest : ExtractedData) :
  Csv.convertToCsv (Some (first :: rest))
  = if existsb (Csv.reads_member (Object_keys first)) rest
    then Csv.TypeError
    else Csv.Normal (Spec.csv_text first rest).
Proof.
  rewrite convertToCsv_cases. cbn [existsb].
  now rewrite first_row_reads_own.
Qed.


Lemma existsb_pointwise {A : Type} (p q : A -> bool) (l : list A) :
  (forall x, p x = q x) -> existsb p l = existsb q l.
Proof.
  intros H. induction l as [|x l IH]; [reflexivity|].
  cbn. now rewrite H, IH.
Qed.





(** The runs of the counterexample, and a row without array indices. *)
Example convertToCsv_years_first :
  Csv.convertToCsv (Some [[("Name", "Bob"); ("2023", "5"); ("2022", "7")]])
  = Csv.Normal
      ("2022,2023,Name"
       ++ String newline
            (Spec.quoted "7" ++ "," ++ Spec.quoted "5" ++ "," ++ Spec.quoted "Bob"))%string.
Proof. reflexivity. Qed.

Example convertToCsv_inherited_constructor :
  Csv.convertToCsv (Some [[("constructor", "x")]; []]) = Csv.TypeError.
Proof. reflexivity. Qed.

Example convertToCsv_own_empty_constructor :
  Csv.convertToCsv (Some [[("constructor", "x")]; [("constructor", EmptyString)]])
  = Csv.Normal
      ("constructor"
       ++ String newline (Spec.quoted "x")
       ++ String newline (Spec.quoted EmptyString))%string.
Proof. reflexivity. Qed.

Example convertToCsv_header_unsorted :
  Csv.convertToCsv (Some [[("b", "1"); ("a", "2")]])
  = Csv.Normal
      ("b,a" ++ String newline (Spec.quoted "1" ++ "," ++ Spec.quoted "2"))%string.
Proof. reflexivity. Qed.

Lemma last_char_app (a b : string) :
  b <> EmptyString -> last_char (a ++ b) = last_char b.
Proof.
  intros Hb. induction a as [|c a IH]; [reflexivity|].
  simpl. rewrite IH. destruct (a ++ b)%string eqn:E; [|reflexivity].
  destruct a; simpl in E; [contradiction|discriminate].
Qed.

(** The last element of a non-empty joined list decides the last
    character, when every element but the first ends the same way. *)
Lemma last_char_join (sep x : string) (l : list string) (c : ascii) :
  l <> [] ->
  Forall (fun y => last_char y = Some c) l ->
  last_char (join sep (x :: l)) = Some c.
Proof.
  revert x. induction l as [|y l IH]; intros x Hne H; [contradiction|].
  inversion H as [|? ? Hy Hl]; subst.
  rewrite join_step, <- append_assoc.
  assert (Hlast : last_char (join sep (y :: l)) = Some c).
  { destruct l as [|z l]; [exact Hy|]. apply IH; [discriminate|exact Hl]. }
  rewrite last_char_app; [exact Hlast|].
  intros E. rewrite E in Hlast. discriminate.
Qed.

Lemma last_char_quoted (v : string) : last_char (Spec.quoted v) = Some dquote.
Proof.
  unfold Spec.quoted.
  change (String dquote (Spec.double_quotes v ++ str1 dquote))
    with (String dquote (Spec.double_quotes v) ++ str1 dquote)%string.
  now rewrite last_char_app.
Qed.

Lemma last_char_row_text (k : string) (ks : list string) (row : TableRow) :
  last_char (Spec.row_text (k :: ks) row) = Some dquote.
Proof.
  unfold Spec.row_text. cbn [map].
  destruct ks as [|k' ks]; [apply last_char_quoted|].
  apply last_char_join; [discriminate|].
  apply Forall_forall. intros y Hy. apply in_map_iff in Hy as [h [<- _]].
  apply last_char_quoted.
Qed.

(** When the first row has a key, the text ends with the closing quote
    of the last cell, not with a line feed. *)
Lemma csv_text_ends_with_quote (first : TableRow) (rest : ExtractedData) :
  first <> [] ->
  last_char (Spec.csv_text first rest) = Some dquote.
Proof.
  intros Hne. unfold Spec.csv_text. apply last_char_join; [discriminate|].
  apply Forall_forall. intros y Hy. apply in_map_iff in Hy as [row [<- _]].
  pose proof (Object_keys_length first) as Hlen.
  destruct (Object_keys first) as [|key keys].
  - destruct first; [contradiction|discriminate Hlen].
  - apply last_char_row_text.
Qed.





(** ** Field counts under a split on commas *)

Lemma plain_true (s : string) :
  Spec.plain s = true <-> occurs comma s = false /\ occurs newline s = false.
Proof.
  unfold Spec.plain. rewrite andb_true_iff, !negb_true_iff. reflexivity.
Qed.

Lemma own_In (row : TableRow) (key v : string) :
  own row key = Some v -> In v (map snd row).
Proof.
  induction row as [|[k w] row IH]; simpl; [discriminate|].
  destruct (String.eqb k key); intros H.
  - injection H as ->. now left.
  - right. now apply IH.
Qed.

Lemma value_of_without (c : ascii) (row : TableRow) (key : string) :
  Forall (fun kv => occurs c (snd kv) = false) row ->
  occurs c (Spec.value_of row key) = false.
Proof.
  intros H. unfold Spec.value_of. destruct (own row key) as [v|] eqn:E; [|reflexivity].
  apply own_In, in_map_iff in E as [[k w] [Hw Hin]]. cbn in Hw. subst w.
  rewrite Forall_forall in H. exact (H _ Hin).
Qed.

Lemma occurs_double_quotes (c : ascii) (v : string) :
  Ascii.eqb dquote c = false ->
  occurs c (Spec.double_quotes v) = occurs c v.
Proof.
  intros Hc. induction v as [|a v IH]; [reflexivity|].
  cbn [Spec.double_quotes]. destruct (Ascii.eqb a dquote) eqn:Ha.
  - apply Ascii.eqb_eq in Ha. subst a. cbn [occurs]. now rewrite Hc, IH.
  - cbn [occurs]. now rewrite IH.
Qed.

(** A character other than the double quote occurs in a quoted value
    exactly when it occurs in the value. *)
Lemma occurs_quoted (c : ascii) (v : string) :
  Ascii.eqb dquote c = false ->
  occurs c (Spec.quoted v) = occurs c v.
Proof.
  intros Hc. unfold Spec.quoted. cbn [occurs]. rewrite Hc, occurs_app.
  rewrite (occurs_double_quotes _ _ Hc). cbn [occurs str1]. rewrite Hc.
  cbn [orb]. apply orb_false_r.
Qed.

Lemma row_text_without (c : ascii) (headers : list string) (row : TableRow) :
  Ascii.eqb dquote c = false ->
  Ascii.eqb comma c = false ->
  Forall (fun kv => occurs c (snd kv) = false) row ->
  occurs c (Spec.row_text headers row) = false.
Proof.
  intros Hq Hc H. unfold Spec.row_text. apply occurs_join.
  - unfold str1. cbn [occurs]. now rewrite Hc.
  - apply Forall_forall. intros y Hy. apply in_map_iff in Hy as [h [<- _]].
    rewrite (occurs_quoted _ _ Hq). now apply value_of_without.
Qed.

Lemma row_text_fields (k : string) (ks : list string) (row : TableRow) :
  Forall (fun kv => occurs comma (snd kv) = false) row ->
  split comma (Spec.row_text (k :: ks) row)
  = map (fun header => Spec.quoted (Spec.value_of row header)) (k :: ks).
Proof.
  intros Hrow. unfold Spec.row_text. cbn [map]. apply split_join.
  rewrite <- (map_cons (fun header => Spec.quoted (Spec.value_of row header))).
  apply Forall_forall. intros y Hy. apply in_map_iff in Hy as [h [<- _]].
  rewrite occurs_quoted by reflexivity. now apply value_of_without.
Qed.

Lemma plain_values (c : ascii) (row : TableRow) :
  (forall s, Spec.plain s = true -> occurs c s = false) ->
  Forall (fun kv => Spec.plain (snd kv) = true) row ->
  Forall (fun kv => occurs c (snd kv) = false) row.
Proof.
  intros Hc H. eapply Forall_impl; [|exact H]. intros kv Hkv. now apply Hc.
Qed.

(** The lines of the text, when neither keys nor values hold a line
    feed. *)
Lemma csv_text_lines (first : TableRow) (rest : ExtractedData) :
  Forall (fun key => occurs newline key = false) (Object_keys first) ->
  Forall (fun row => Forall (fun kv => occurs newline (snd kv) = false) row)
    (first :: rest) ->
  split newline (Spec.csv_text first rest)
  = join (str1 comma) (Object_keys first)
      :: map (Spec.row_text (Object_keys first)) (first :: rest).
Proof.
  intros Hkeys Hrows. unfold Spec.csv_text. apply split_join. constructor.
  - apply occurs_join; [reflexivity|exact Hkeys].
  - apply Forall_forall. intros line Hline.
    apply in_map_iff in Hline as [row [<- Hin]].
    rewrite Forall_forall in Hrows.
    apply row_text_without; [reflexivity | reflexivity | now apply Hrows].
Qed.

(** C2, as amended. When the first row has at least one key, no key of
    the first row contains a comma or a line feed, no value of any row
    does, and no row after the first lacks a key of the first row that
    names a member of [Object.prototype] (so that the serialiser
    returns), the first line of the output splits on commas into as many
    fields as the first row has keys, and so does every later line. *)
Theorem field_counts_of_plain_data (first : TableRow) (rest : ExtractedData) :
  Object_keys first <> [] ->
  Forall (fun k => Spec.plain k = true) (Object_keys first) ->
  Forall (fun row => Forall (fun kv => Spec.plain (snd kv) = true) row) (first :: rest) ->
  existsb (Csv.reads_member (Object_keys first)) rest = false ->
  Spec.field_counts_agree (first :: rest).
Proof.
  intros Hne Hkeys Hrows Hown. unfold Spec.field_counts_agree.
  rewrite convertToCsv_returns, Hown.
  rewrite csv_text_lines.
  - destruct (Object_keys first) as [|k ks] eqn:Ek; [contradiction|].
    split.
    + rewrite split_join; [reflexivity|].
      eapply Forall_impl; [|exact Hkeys]. intros s Hs. now apply plain_true in Hs.
    + apply Forall_forall. intros line Hline.
      apply in_map_iff in Hline as [row [<- Hin]].
      rewrite Forall_forall in Hrows.
      rewrite row_text_fields, length_map; [reflexivity|].
      apply (plain_values comma); [|now apply Hrows].
      intros s Hs. now apply plain_true in Hs.
  - eapply Forall_impl; [|exact Hkeys]. intros s Hs. now apply plain_true in Hs.
  - eapply Forall_impl; [|exact Hrows]. intros row Hrow.
    apply (plain_values newline); [|exact Hrow].
    intros s Hs. now apply plain_true in Hs.
Qed.

Lemma field_counts_of_plain_data_witness :
  Spec.field_counts_agree
    [[("row", "1"); ("J", "4'-7 1/8"); ("K", "b"); ("L", "c")];
     [("row", "2"); ("K", "e")]].
Proof.
  apply field_counts_of_plain_data.
  - discriminate.
  - repeat constructor.
  - repeat constructor.
  - reflexivity.
Defined.

(** C2, as stated, fails: a value with a comma makes the line of its row
    split into more fields than there are keys; and for a second row
    that lacks the key constructor of the first there are no lines at
    all, the serialiser throws. *)
Lemma field_counts_disagree_on_comma :
  ~ Spec.field_counts_agree [[("Name", "Doe, John")]]
  /\
  ~ Spec.field_counts_agree [[("constructor", "x")]; []].
Proof.
  split; unfold Spec.field_counts_agree; cbn.
  - intros [_ H]. inversion H as [|? ? Hlen _]. discriminate Hlen.
  - intros H. exact H.
Qed.

(** A first row without keys gives an empty header line, which still
    splits into one field. *)
Example field_counts_disagree_on_no_keys :
  ~ Spec.field_counts_agree [[]].
Proof.
  unfold Spec.field_counts_agree. simpl. intros [H _]. discriminate H.
Qed.

(** ** The extraction client *)

Lemma init_service_handle (env_API_KEY : option string) :
  isApiConfigured (fst (init_service env_API_KEY)) = truthy env_API_KEY.
Proof.
  unfold init_service. destruct (truthy env_API_KEY); reflexivity.
Qed.

(** C3. Without a credential the handle is null, and with a null handle
    [extractDataFromImage] throws the not-configured message at once, in
    both revisions: the log of effects is returned as it was, so no
    request was built or sent. *)
Theorem unconfigured_fails_without_call (r : Revision) (rt : Runtime)
    (base64Image : option string) (mimeType : string) (log : Log) :
  fst (init_service None) = None /\
  fst (init_service (Some EmptyString)) = None /\
  extractDataFromImage_of r rt None base64Image mimeType log
  = (log, inl (ErrorObj Messages.not_configured)).
Proof.
  repeat split. destruct r; reflexivity.
Qed.

(** The remote call is the only source of [NetworkCall] effects and is
    reached only with a handle. *)
Lemma configured_call_is_logged (r : Revision) (rt : Runtime) (client : GoogleGenAI)
    (base64Image : option string) (mimeType : string) (log : Log) :
  exists tail,
    fst (extractDataFromImage_of r rt (Some client) base64Image mimeType log)
    = log ++ NetworkCall (apiKey client) (request_of r base64Image mimeType) :: tail.
Proof.
  destruct r; unfold_extract;
    destruct (generateContent rt _ _ _) as [[message|what]|response_text];
    try destruct (JSON_parse rt _) as [message|v];
    cbn; split_on_includes;
    eexists; cbn; rewrite <- ?app_assoc; reflexivity.
Qed.

(** [extractDataFromImage] with a handle, case by case. *)
Lemma extract_resolved (r : Revision) (rt : Runtime) (client : GoogleGenAI)
    (base64Image : option string) (mimeType : string) (log : Log) (v : Json) :
  (exists response_text,
      generateContent rt (apiKey client) log (request_of r base64Image mimeType)
      = inr response_text /\
      JSON_parse rt (trim response_text) = inr v) ->
  extractDataFromImage_of r rt (Some client) base64Image mimeType log
  = (log ++ [NetworkCall (apiKey client) (request_of r base64Image mimeType)], inr v).
Proof.
  intros [response_text [Hcall Hparse]].
  destruct r; unfold_extract; rewrite Hcall, Hparse; reflexivity.
Qed.

Lemma extract_raised (r : Revision) (rt : Runtime) (client : GoogleGenAI)
    (base64Image : option string) (mimeType : string) (log : Log) (e : Thrown) :
  raised_in_try rt (apiKey client) log (request_of r base64Image mimeType) = Some e ->
  snd (extractDataFromImage_of r rt (Some client) base64Image mimeType log)
  = match r, e with
    | _, NonError _ => inl (ErrorObj Messages.unknown_error)
    | FixedSchemaRevision, ErrorObj message =>
        inl (ErrorObj (Messages.failed_prefix ++ message))
    | DynamicHeaderRevision, ErrorObj message =>
        if includes "JSON" message
        then inl (ErrorObj Messages.unexpected_format)
        else inl (ErrorObj (Messages.failed_prefix ++ message))
    end.
Proof.
  unfold raised_in_try. intros H.
  destruct r; unfold_extract;
    destruct (generateContent rt _ _ _) as [e'|response_text];
    try destruct (JSON_parse rt _) as [message|v];
    inversion H; subst; cbn; split_on_includes;
    try destruct e; cbn; split_on_includes;
    reflexivity.
Qed.

(** C1, as amended. Whatever is thrown inside the [try] (the rejection of
    the call or the syntax error of the parser) is replaced as follows. In
    the fixed-schema revision every [Error] is rethrown with its message
    behind the fixed prefix, also one whose message contains JSON, such as
    the syntax error of the parser. In the dynamic-header revision an
    [Error] whose message contains JSON is rethrown as the fixed
    unexpected-format message, and any other [Error] with its message
    behind the fixed prefix. In both revisions a thrown value that is not
    an [Error] is rethrown as the fixed unknown-error message. *)
Theorem failure_classification (r : Revision) (rt : Runtime) (client : GoogleGenAI)
    (base64Image : option string) (mimeType : string) (log : Log) (e : Thrown) :
  raised_in_try rt (apiKey client) log (request_of r base64Image mimeType) = Some e ->
  let thrown :=
    snd (extractDataFromImage_of r rt (Some client) base64Image mimeType log) in
  match e with
  | ErrorObj message =>
      if includes "JSON" message
      then match r with
           | FixedSchemaRevision =>
               thrown = inl (ErrorObj (Messages.failed_prefix ++ message))
           | DynamicHeaderRevision =>
               thrown = inl (ErrorObj Messages.unexpected_format)
           end
      else thrown = inl (ErrorObj (Messages.failed_prefix ++ message))
  | NonError _ => thrown = inl (ErrorObj Messages.unknown_error)
  end.
Proof.
  intros H thrown. subst thrown. rewrite (extract_raised _ _ _ _ _ _ _ H).
  destruct e as [message|what].
  - destruct (includes "JSON" message) eqn:E; destruct r; reflexivity.
  - destruct r; reflexivity.
Qed.

Lemma failure_classification_witness :
  snd (DynamicHeader.extractDataFromImage
         (scripted (inr "oops") (Loaded EmptyString))
         (Some {| apiKey := "key" |}) (Some "AAAA") "image/png" [])
  = inl (ErrorObj Messages.unexpected_format)
  /\
  snd (FixedSchema.extractDataFromImage
         (scripted (inr "oops") (Loaded EmptyString))
         (Some {| apiKey := "key" |}) (Some "AAAA") "image/png" [])
  = inl (ErrorObj (Messages.failed_prefix ++ "Unexpected token o in JSON at position 0")).
Proof.
  split.
  - exact (failure_classification DynamicHeaderRevision
             (scripted (inr "oops") (Loaded EmptyString))
             {| apiKey := "key" |} (Some "AAAA") "image/png" []
             (ErrorObj "Unexpected token o in JSON at position 0")
             eq_refl).
  - exact (failure_classification FixedSchemaRevision
             (scripted (inr "oops") (Loaded EmptyString))
             {| apiKey := "key" |} (Some "AAAA") "image/png" []
             (ErrorObj "Unexpected token o in JSON at position 0")
             eq_refl).
Defined.

(** C1, as stated, fails. In the fixed-schema revision a response text
    that does not parse is rethrown with the message of the parser behind
    the fixed prefix; in the dynamic-header revision a failure of the
    remote call whose message happens to contain JSON is reported as a
    malformed response. *)
Lemma failures_not_classified_as_specified :
  ~ Spec.classifies_as_specified FixedSchemaRevision
      (scripted (inr "oops") (Loaded EmptyString))
      {| apiKey := "key" |} (Some "AAAA") "image/png" []
  /\
  ~ Spec.classifies_as_specified DynamicHeaderRevision
      (scripted (inl (ErrorObj "Invalid JSON payload received.")) (Loaded EmptyString))
      {| apiKey := "key" |} (Some "AAAA") "image/png" [].
Proof.
  split; unfold Spec.classifies_as_specified; cbn; intros H; discriminate H.
Qed.

(** The two runs of the counterexample, evaluated. *)
Example fixed_schema_rethrows_parser_message :
  snd (FixedSchema.extractDataFromImage
         (scripted (inr "oops") (Loaded EmptyString))
         (Some {| apiKey := "key" |}) (Some "AAAA") "image/png" [])
  = inl (ErrorObj
           "Failed to process image with Gemini API: Unexpected token o in JSON at position 0").
Proof. reflexivity. Qed.

Example dynamic_header_takes_service_error_for_malformed :
  snd (DynamicHeader.extractDataFromImage
         (scripted (inl (ErrorObj "Invalid JSON payload received.")) (Loaded EmptyString))
         (Some {| apiKey := "key" |}) (Some "AAAA") "image/png" [])
  = inl (ErrorObj Messages.unexpected_format).
Proof. reflexivity. Qed.

(** C9. When the response text, trimmed, parses, [extractDataFromImage]
    returns the parsed value as it is, in both revisions, whatever its
    shape; the only effect is the one network call. *)
Theorem parsed_value_returned_unchanged (r : Revision) (rt : Runtime)
    (client : GoogleGenAI) (base64Image : option string) (mimeType : string)
    (log : Log) (response_text : string) (v : Json) :
  generateContent rt (apiKey client) log (request_of r base64Image mimeType)
  = inr response_text ->
  JSON_parse rt (trim response_text) = inr v ->
  extractDataFromImage_of r rt (Some client) base64Image mimeType log
  = (log ++ [NetworkCall (apiKey client) (request_of r base64Image mimeType)], inr v).
Proof.
  intros Hcall Hparse. apply extract_resolved. now exists response_text.
Qed.

Lemma parsed_value_returned_unchanged_witness :
  Spec.is_ExtractedData Sample.uneven_rows = false /\
  FixedSchema.extractDataFromImage
    (scripted (inr Sample.uneven_rows_text) (Loaded EmptyString))
    (Some Sample.client) (Some "AAAA") "image/png" []
  = ([NetworkCall "key" (FixedSchema.request (Some "AAAA") "image/png")],
     inr Sample.uneven_rows).
Proof.
  split; [reflexivity|].
  apply (parsed_value_returned_unchanged FixedSchemaRevision
           (scripted (inr Sample.uneven_rows_text) (Loaded EmptyString))
           Sample.client (Some "AAAA") "image/png" [] Sample.uneven_rows_text);
    reflexivity.
Defined.

(** The same in the dynamic-header revision, for a response that is a
    number and no table at all. *)
Example dynamic_header_returns_a_number :
  DynamicHeader.extractDataFromImage
    (scripted (inr "42") (Loaded EmptyString))
    (Some Sample.client) (Some "AAAA") "image/png" []
  = ([NetworkCall "key" (DynamicHeader.request (Some "AAAA") "image/png")],
     inr (JNumber 42 0)).
Proof. reflexivity. Qed.

(** ** The image encoder *)

(** C8. When the reader loads a result that is a prefix without comma, a
    comma and a base64 payload (a data URL), the promise of
    [fileToBase64] resolves with the payload alone, which is the result
    with everything up to and including its first comma removed; when the
    reader fails, the promise rejects with the event of the failure. *)
Theorem fileToBase64_contract (rt : Runtime) (file : File) (log : Log) :
  (forall prefix payload : string,
      readAsDataURL rt file = Loaded (prefix ++ String comma payload) ->
      occurs comma prefix = false ->
      Spec.base64_text payload = true ->
      snd (App.fileToBase64 rt file log) = inr (Some payload) /\
      Spec.after_first_comma (prefix ++ String comma payload) = Some payload) /\
  (forall event : string,
      readAsDataURL rt file = ReadFailed event ->
      snd (App.fileToBase64 rt file log) = inl (NonError event)).
Proof.
  split.
  - intros prefix payload Hread Hprefix Hpayload.
    assert (Hcomma : occurs comma payload = false).
    { clear Hread. induction payload as [|c payload IH]; [reflexivity|].
      simpl in Hpayload. apply andb_true_iff in Hpayload as [Hc Hrest].
      simpl. rewrite (IH Hrest), orb_false_r.
      destruct (Ascii.eqb c comma) eqn:E; [|reflexivity].
      apply Ascii.eqb_eq in E. subst c. discriminate Hc. }
    split.
    + unfold App.fileToBase64, bind, emit. cbn. rewrite Hread. cbn.
      rewrite (split_field _ _ _ Hprefix), (split_without _ _ Hcomma). reflexivity.
    + clear Hread. induction prefix as [|c prefix IH]; [reflexivity|].
      simpl in Hprefix. apply orb_false_elim in Hprefix as [Hc Hrest].
      simpl. rewrite Hc. exact (IH Hrest).
  - intros event Hread. unfold App.fileToBase64, bind, emit. cbn. now rewrite Hread.
Qed.

Lemma fileToBase64_contract_witness :
  snd (App.fileToBase64
         (scripted (inr "[]") (Loaded (Spec.data_url "image/png" "iVBORw0KGgo=")))
         Sample.png [])
  = inr (Some "iVBORw0KGgo=")
  /\
  snd (App.fileToBase64
         (scripted (inr "[]") (ReadFailed "error")) Sample.png [])
  = inl (NonError "error").
Proof.
  split.
  - apply (proj1 (fileToBase64_contract
                    (scripted (inr "[]") (Loaded (Spec.data_url "image/png" "iVBORw0KGgo=")))
                    Sample.png [])
             "data:image/png;base64" "iVBORw0KGgo="); reflexivity.
  - apply (proj2 (fileToBase64_contract
                    (scripted (inr "[]") (ReadFailed "error")) Sample.png [])
             "error"); reflexivity.
Defined.

(** A result without comma resolves the promise with [undefined], and of
    a result with a second comma only the part before it is kept. *)
Example fileToBase64_without_comma :
  snd (App.fileToBase64 (scripted (inr "[]") (Loaded "data:")) Sample.png []) = inr None.
Proof. reflexivity. Qed.

Example fileToBase64_second_comma :
  snd (App.fileToBase64 (scripted (inr "[]") (Loaded "data:a,b,c")) Sample.png [])
  = inr (Some "b").
Proof. reflexivity. Qed.

(** ** The view controller *)

Lemma accepted_type_iff (t : string) :
  App.accepted_type t = true
  <-> t = "image/jpeg" \/ t = "image/jpg" \/ t = "image/png".
Proof.
  unfold App.accepted_type. rewrite !orb_true_iff, !String.eqb_eq. tauto.
Qed.

(** C6. [handleFileChange] accepts a file exactly when its type is one of
    image/jpeg, image/jpg and image/png. An accepted file becomes the
    selected image with a fresh preview and no error, whatever error was
    shown before. Any other selection, also an empty one, sets the
    validation error, clears the selected image and the preview and
    leaves the extracted data as they were. *)
Theorem handleFileChange_validates (rt : Runtime) (file0 : option File) (st : App.State) :
  let st' := App.handleFileChange rt file0 st in
  let accepted :=
    match file0 with
    | Some file => App.accepted_type (type file)
    | None => false
    end in
  (forall t, App.accepted_type t = true
             <-> t = "image/jpeg" \/ t = "image/jpg" \/ t = "image/png") /\
  (if accepted
   then App.imageFile st' = file0 /\
        App.imageDataUrl st' = option_map (createObjectURL rt) file0 /\
        App.extractedData st' = None /\
        App.error st' = None
   else App.error st' = Some Messages.invalid_file /\
        App.imageFile st' = None /\
        App.imageDataUrl st' = None /\
        App.extractedData st' = App.extractedData st) /\
  App.isLoading st' = App.isLoading st /\
  App.configError st' = App.configError st.
Proof.
  cbv zeta. split; [exact accepted_type_iff|].
  unfold App.handleFileChange.
  destruct file0 as [file|]; [destruct (App.accepted_type (type file))|];
    cbn; repeat split; reflexivity.
Qed.

(** A text file after a result: the error is set and the data stay; a
    PNG afterwards clears the error. *)
Example text_file_then_png :
  let rt := scripted (inr "[]") (Loaded EmptyString) in
  let rejected := App.handleFileChange rt (Some Sample.notes) Sample.reviewed in
  let selected := App.handleFileChange rt (Some Sample.png) rejected in
  App.error rejected = Some Messages.invalid_file /\
  App.imageFile rejected = None /\
  App.imageDataUrl rejected = None /\
  App.extractedData rejected = App.extractedData Sample.reviewed /\
  App.error selected = None /\
  App.imageFile selected = Some Sample.png.
Proof. cbv zeta. repeat split; reflexivity. Qed.

Section Session.

Variable extractDataFromImage :
  Runtime -> option GoogleGenAI -> option string -> string -> Eff Json.
Variable rt : Runtime.

#[local] Abbreviation step := (App.step extractDataFromImage rt).
#[local] Abbreviation run := (App.run extractDataFromImage rt).

Lemma handleFileChange_configError (file0 : option File) (st : App.State) :
  App.configError (App.handleFileChange rt file0 st) = App.configError st.
Proof.
  unfold App.handleFileChange.
  destruct file0 as [file|]; [destruct (App.accepted_type (type file))|]; reflexivity.
Qed.

(** With a configuration error the handler returns at its first line. *)
Lemma handleExtractData_suppressed (ai : option GoogleGenAI) (log : Log)
    (st : App.State) :
  truthy (App.configError st) = true ->
  App.handleExtractData extractDataFromImage rt ai log st = (log, st).
Proof.
  intros H. unfold App.handleExtractData, App.handleExtractData_enter.
  now rewrite H.
Qed.

Lemma handleExtractData_configError (ai : option GoogleGenAI) (log : Log)
    (st : App.State) :
  App.configError (snd (App.handleExtractData extractDataFromImage rt ai log st))
  = App.configError st.
Proof.
  unfold App.handleExtractData, App.handleExtractData_enter.
  destruct (truthy (App.configError st)); [reflexivity|].
  destruct (App.imageFile st) as [file|]; [|reflexivity].
  destruct (App.extraction _ _ _ _ _) as [log' [err|data]]; reflexivity.
Qed.

Lemma step_handle (s : App.Session) (ev : App.Event) :
  App.handle (step s ev) = App.handle s.
Proof.
  destruct ev as [file0|]; cbn; [reflexivity|].
  destruct (App.handleExtractData _ _ _ _ _). reflexivity.
Qed.

Lemma step_configError (s : App.Session) (ev : App.Event) :
  App.configError (App.view (step s ev)) = App.configError (App.view s).
Proof.
  destruct ev as [file0|]; cbn.
  - apply handleFileChange_configError.
  - pose proof (handleExtractData_configError (App.handle s) (App.effects s) (App.view s)) as H.
    destruct (App.handleExtractData _ _ _ _ _). exact H.
Qed.

Lemma step_suppressed (s : App.Session) :
  truthy (App.configError (App.view s)) = true ->
  step s App.ClickExtract = s.
Proof.
  intros H. cbn. rewrite (handleExtractData_suppressed _ _ _ H).
  destruct s; reflexivity.
Qed.

Lemma step_effects_suppressed (s : App.Session) (ev : App.Event) :
  truthy (App.configError (App.view s)) = true ->
  App.effects (step s ev) = App.effects s.
Proof.
  intros H. destruct ev as [file0|]; [reflexivity|].
  now rewrite (step_suppressed s H).
Qed.

(** What a session keeps whatever the user does. *)
Lemma run_invariant (evs : list App.Event) (s : App.Session) :
  App.handle (run s evs) = App.handle s /\
  App.configError (App.view (run s evs)) = App.configError (App.view s) /\
  (truthy (App.configError (App.view s)) = true ->
   App.effects (run s evs) = App.effects s).
Proof.
  revert s. induction evs as [|ev evs IH]; intros s; [now repeat split|].
  change (run s (ev :: evs)) with (run (step s ev) evs).
  destruct (IH (step s ev)) as [Hh [Hc He]].
  rewrite Hh, Hc, step_handle, step_configError. repeat split.
  intros H. rewrite He; [now apply step_effects_suppressed|].
  now rewrite step_configError.
Qed.

(** C7. The handle of the service module is what the initialisation
    made of the credential, configured exactly when the credential is a
    non-empty string, and no event changes it. When there is no
    credential, the configuration error is set on mount and stays set
    whatever the user does, the effect log never grows (no network
    call), and a click on the extract button leaves the session as it
    is. With a credential the configuration error is never set. *)
Theorem configuration_fixed_for_session (env_API_KEY : option string)
    (evs : list App.Event) :
  let s0 := App.startup env_API_KEY in
  let s := App.run extractDataFromImage rt s0 evs in
  App.handle s = fst (init_service env_API_KEY) /\
  isApiConfigured (App.handle s) = truthy env_API_KEY /\
  (if truthy env_API_KEY
   then App.configError (App.view s) = None
   else App.configError (App.view s) = Some Messages.config_error /\
        App.effects s = App.effects s0 /\
        App.step extractDataFromImage rt s App.ClickExtract = s).
Proof.
  cbv zeta.
  destruct (run_invariant evs (App.startup env_API_KEY)) as [Hh [Hc He]].
  rewrite Hh, Hc.
  assert (H0 : App.handle (App.startup env_API_KEY) = fst (init_service env_API_KEY)).
  { unfold App.startup. destruct (init_service env_API_KEY). reflexivity. }
  rewrite H0, init_service_handle. repeat split.
  unfold App.startup, init_service in *.
  destruct (truthy env_API_KEY) eqn:Hk; [reflexivity|].
  cbn in *. repeat split.
  - now apply He.
  - apply step_suppressed. now rewrite Hc.
Qed.

End Session.

Section Extraction.

Variable extractDataFromImage :
  Runtime -> option GoogleGenAI -> option string -> string -> Eff Json.
Variable rt : Runtime.

(** C10. When no configuration error is set and an image is selected,
    [handleExtractData] first sets the loading flag, clears the error
    and sets the extracted data to null; when the awaited calls then
    throw, the handler ends with the extracted data still null, the
    loading flag cleared and the error set to the message of the thrown
    [Error], or to the fixed unexpected-error text when the thrown
    value is no [Error]. The data shown before are not restored. *)
Theorem failed_extraction_discards_result (ai : option GoogleGenAI) (log : Log)
    (st : App.State) (file : File) (err : Thrown) :
  truthy (App.configError st) = false ->
  App.imageFile st = Some file ->
  snd (App.extraction extractDataFromImage rt ai file log) = inl err ->
  let entered := fst (App.handleExtractData_enter st) in
  let st' := snd (App.handleExtractData extractDataFromImage rt ai log st) in
  (App.extractedData entered = None /\
   App.error entered = None /\
   App.isLoading entered = true) /\
  App.extractedData st' = None /\
  App.error st' = Some (match err with
                        | ErrorObj message => message
                        | NonError _ => Messages.unexpected_error
                        end) /\
  App.isLoading st' = false /\
  App.imageFile st' = App.imageFile st /\
  App.imageDataUrl st' = App.imageDataUrl st.
Proof.
  intros Hconfig Hfile Hthrow. cbv zeta.
  unfold App.handleExtractData, App.handleExtractData_enter.
  rewrite Hconfig, Hfile.
  destruct (App.extraction extractDataFromImage rt ai file log) as [log' outcome].
  cbn in Hthrow. subst outcome.
  destruct err; cbn; rewrite ?Hfile; repeat split; reflexivity.
Qed.

End Extraction.

Lemma failed_extraction_discards_result_witness :
  let rt := scripted (inl (ErrorObj "503 Service Unavailable"))
              (Loaded (Spec.data_url "image/png" "iVBORw0KGgo=")) in
  let st' :=
    snd (App.handleExtractData DynamicHeader.extractDataFromImage rt
           (Some Sample.client) [] Sample.reviewed) in
  App.extractedData Sample.reviewed <> None /\
  App.extractedData st' = None /\
  App.error st'
  = Some "Failed to process image with Gemini API: 503 Service Unavailable".
Proof.
  cbv zeta. split; [discriminate|].
  pose proof (failed_extraction_discards_result DynamicHeader.extractDataFromImage
                (scripted (inl (ErrorObj "503 Service Unavailable"))
                   (Loaded (Spec.data_url "image/png" "iVBORw0KGgo=")))
                (Some Sample.client) [] Sample.reviewed Sample.png
                (ErrorObj "Failed to process image with Gemini API: 503 Service Unavailable")
                eq_refl eq_refl eq_refl) as H.
  cbv zeta in H. destruct H as [_ [Hdata [Herror _]]]. split; assumption.
Defined.

(** A file that cannot be read: the thrown value is the event, and the
    fixed text is shown. *)
Example unreadable_file_shows_fixed_text :
  let rt := scripted (inr "[]") (ReadFailed "error") in
  let st' :=
    snd (App.handleExtractData FixedSchema.extractDataFromImage rt
           (Some Sample.client) [] Sample.reviewed) in
  App.extractedData st' = None /\
  App.error st' = Some Messages.unexpected_error.
Proof. cbv zeta. split; reflexivity. Qed.

(** Without a selected image the handler only sets its own message: the
    data are kept and nothing is dispatched. *)
Example no_image_keeps_data :
  let st := App.setImageFile None Sample.reviewed in
  App.handleExtractData DynamicHeader.extractDataFromImage
    (scripted (inr "[]") (Loaded EmptyString)) (Some Sample.client) [] st
  = ([], App.setError (Some Messages.no_image) st).
Proof. reflexivity. Qed.

(* ===================================================================== *)
(** * Further properties *)
(* ===================================================================== *)

(** ** The extraction client: effects, thrown values, returned values *)

Lemma network_calls_app (a b : Log) :
  network_calls (a ++ b) = network_calls a ++ network_calls b.
Proof.
  induction a as [|e a IH]; [reflexivity|].
  destruct e; cbn; now rewrite IH.
Qed.

(** X1. With a handle, one invocation of [extractDataFromImage] makes
    exactly one network call, with the request of its revision: the log
    grows by that call and, exactly when the invocation throws, by one
    console error after it. Nothing is retried. *)
Theorem one_call_per_invocation (r : Revision) (rt : Runtime) (client : GoogleGenAI)
    (base64Image : option string) (mimeType : string) (log : Log) :
  let out := extractDataFromImage_of r rt (Some client) base64Image mimeType log in
  fst out
  = log ++ NetworkCall (apiKey client) (request_of r base64Image mimeType)
        :: match snd out with
           | inl _ => [ConsoleError Messages.extracting_failed]
           | inr _ => []
           end
  /\ network_calls (fst out)
     = network_calls log ++ [(apiKey client, request_of r base64Image mimeType)].
Proof.
  cbv zeta.
  assert (H : fst (extractDataFromImage_of r rt (Some client) base64Image mimeType log)
              = log ++ NetworkCall (apiKey client) (request_of r base64Image mimeType)
                    :: match snd (extractDataFromImage_of r rt (Some client)
                                    base64Image mimeType log) with
                       | inl _ => [ConsoleError Messages.extracting_failed]
                       | inr _ => []
                       end).
  { destruct r; unfold_extract;
      destruct (generateContent rt _ _ _) as [[message|what]|response_text];
      try destruct (JSON_parse rt _) as [message|v];
      cbn; split_on_includes; cbn; rewrite <- ?app_assoc; reflexivity. }
  split; [exact H|].
  rewrite H, network_calls_app. cbn.
  destruct (snd _); reflexivity.
Qed.

(** X2. Whatever [extractDataFromImage] throws, with or without a
    handle, is an [Error] with a non-empty message of one of four
    forms: the not-configured text, the unknown-error text, the
    unexpected-format text (dynamic-header revision only), or the fixed
    prefix followed by the message of the underlying [Error]. The
    [catch] of [handleExtractData] therefore shows that message and never
    its own fallback text. *)
Theorem thrown_is_error_with_message (r : Revision) (rt : Runtime)
    (ai : option GoogleGenAI) (base64Image : option string) (mimeType : string)
    (log : Log) (e : Thrown) :
  snd (extractDataFromImage_of r rt ai base64Image mimeType log) = inl e ->
  exists message,
    e = ErrorObj message /\
    truthy (Some message) = true /\
    App.shown_message e = message /\
    (message = Messages.not_configured /\ ai = None
     \/ message = Messages.unknown_error
     \/ (message = Messages.unexpected_format /\ r = DynamicHeaderRevision)
     \/ exists underlying, message = (Messages.failed_prefix ++ underlying)%string).
Proof.
  intros H. destruct ai as [client|].
  - destruct r; unfold_extract_in H;
      destruct (generateContent rt _ _ _) as [[message|what]|response_text];
      try destruct (JSON_parse rt _) as [message|v];
      cbn in H; split_on_includes_in H;
      cbn in H; inversion H; subst;
      eexists; (split; [reflexivity|]); (split; [reflexivity|]);
      (split; [reflexivity|]);
      first [ right; left; reflexivity
            | right; right; left; split; reflexivity
            | right; right; right; eexists; reflexivity ].
  - destruct r; cbn in H; inversion H; subst;
      eexists; (split; [reflexivity|]); (split; [reflexivity|]);
      (split; [reflexivity|]); left; split; reflexivity.
Qed.

Lemma thrown_is_error_with_message_witness :
  exists message,
    ErrorObj "Failed to process image with Gemini API: 503 Service Unavailable"
    = ErrorObj message /\
    truthy (Some message) = true /\
    App.shown_message
      (ErrorObj "Failed to process image with Gemini API: 503 Service Unavailable")
    = message /\
    (message = Messages.not_configured /\ Some Sample.client = None
     \/ message = Messages.unknown_error
     \/ (message = Messages.unexpected_format /\ FixedSchemaRevision = DynamicHeaderRevision)
     \/ exists underlying, message = (Messages.failed_prefix ++ underlying)%string).
Proof.
  exact (thrown_is_error_with_message FixedSchemaRevision
           (scripted (inl (ErrorObj "503 Service Unavailable")) (Loaded EmptyString))
           (Some Sample.client) (Some "AAAA") "image/png" []
           (ErrorObj "Failed to process image with Gemini API: 503 Service Unavailable")
           eq_refl).
Defined.

(** X3. [extractDataFromImage] returns a value only when there is a
    handle, the remote call resolved and the trimmed response text
    parsed to that very value: no value is made up on any other path. *)
Theorem returned_value_was_parsed (r : Revision) (rt : Runtime)
    (ai : option GoogleGenAI) (base64Image : option string) (mimeType : string)
    (log : Log) (v : Json) :
  snd (extractDataFromImage_of r rt ai base64Image mimeType log) = inr v ->
  exists client response_text,
    ai = Some client /\
    generateContent rt (apiKey client) log (request_of r base64Image mimeType)
    = inr response_text /\
    JSON_parse rt (trim response_text) = inr v.
Proof.
  intros H. destruct ai as [client|]; [|destruct r; discriminate H].
  exists client.
  destruct r; unfold_extract_in H;
    destruct (generateContent rt _ _ _) as [[message|what]|response_text] eqn:Hcall;
    try destruct (JSON_parse rt _) as [message|w] eqn:Hparse;
    cbn in H; split_on_includes_in H;
    try discriminate H;
    exists response_text; inversion H; subst; auto.
Qed.

Lemma returned_value_was_parsed_witness :
  exists client response_text,
    Some Sample.client = Some client /\
    generateContent (scripted (inr Sample.uneven_rows_text) (Loaded EmptyString))
      (apiKey client) []
      (request_of DynamicHeaderRevision (Some "AAAA") "image/png")
    = inr response_text /\
    JSON_parse (scripted (inr Sample.uneven_rows_text) (Loaded EmptyString))
      (trim response_text)
    = inr Sample.uneven_rows.
Proof.
  exact (returned_value_was_parsed DynamicHeaderRevision
           (scripted (inr Sample.uneven_rows_text) (Loaded EmptyString))
           (Some Sample.client) (Some "AAAA") "image/png" [] Sample.uneven_rows
           eq_refl).
Defined.

(** ** The view controller over a whole session *)

Lemma handleFileChange_settled (rt : Runtime) (file0 : option File) (st : App.State) :
  App.isLoading st = false ->
  settled rt (App.handleFileChange rt file0 st).
Proof.
  intros Hl. unfold settled, App.handleFileChange.
  destruct file0 as [file|]; [destruct (App.accepted_type (type file)) eqn:E|];
    cbn; repeat split; try exact Hl; try discriminate.
  intros f Hf. injection Hf as <-. exact E.
Qed.

Section Between.

Variable extractDataFromImage :
  Runtime -> option GoogleGenAI -> option string -> string -> Eff Json.
Variable rt : Runtime.

Lemma handleExtractData_settled (ai : option GoogleGenAI) (log : Log) (st : App.State) :
  settled rt st ->
  settled rt (snd (App.handleExtractData extractDataFromImage rt ai log st)).
Proof.
  intros [Htype Hload].
  unfold App.handleExtractData, App.handleExtractData_enter.
  destruct (truthy (App.configError st)); [now repeat split|].
  destruct (App.imageFile st) as [file|] eqn:Hfile.
  - destruct (App.extraction _ _ _ _ _) as [log' [err|data]];
      unfold settled; cbn; rewrite Hfile; repeat split; exact Htype.
  - unfold settled. cbn. rewrite Hfile. repeat split; try exact Hload.
    discriminate.
Qed.

Lemma step_settled (s : App.Session) (ev : App.Event) :
  settled rt (App.view s) ->
  settled rt (App.view (App.step extractDataFromImage rt s ev)).
Proof.
  intros H. destruct ev as [file0|]; cbn.
  - apply handleFileChange_settled. apply H.
  - pose proof (handleExtractData_settled (App.handle s) (App.effects s) (App.view s) H) as H'.
    destruct (App.handleExtractData _ _ _ _ _). exact H'.
Qed.

Lemma session_settled_start (env_API_KEY : option string) :
  settled rt (App.view (App.startup env_API_KEY)).
Proof.
  unfold App.startup. destruct (init_service env_API_KEY) as [ai log].
  unfold App.useEffect_mount. destruct (negb (isApiConfigured ai));
    cbn; repeat split; discriminate.
Qed.

(** X5. When the selected file cannot be read, [handleExtractData] never
    reaches the service: the only effect is the read, the error shown is
    the fixed unexpected-error text (the rejection is an event, not an
    [Error]), and the data are null. *)
Theorem unreadable_file_reaches_no_service (ai : option GoogleGenAI) (log : Log)
    (st : App.State) (file : File) (event : string) :
  truthy (App.configError st) = false ->
  App.imageFile st = Some file ->
  readAsDataURL rt file = ReadFailed event ->
  let out := App.handleExtractData extractDataFromImage rt ai log st in
  fst out = log ++ [FileRead (name file)] /\
  network_calls (fst out) = network_calls log /\
  App.error (snd out) = Some Messages.unexpected_error /\
  App.extractedData (snd out) = None /\
  App.isLoading (snd out) = false.
Proof.
  intros Hc Hf Hr. cbv zeta.
  unfold App.handleExtractData, App.handleExtractData_enter, App.extraction,
    App.fileToBase64, bind, emit.
  rewrite Hc, Hf. cbn. rewrite Hr. cbn.
  rewrite network_calls_app. cbn. rewrite app_nil_r. now repeat split.
Qed.

End Between.

Lemma unreadable_file_reaches_no_service_witness :
  let out :=
    App.handleExtractData DynamicHeader.extractDataFromImage
      (scripted (inr "[]") (ReadFailed "error")) (Some Sample.client) []
      Sample.reviewed in
  fst out = [FileRead "table.png"] /\
  network_calls (fst out) = [] /\
  App.error (snd out) = Some Messages.unexpected_error /\
  App.extractedData (snd out) = None /\
  App.isLoading (snd out) = false.
Proof.
  exact (unreadable_file_reaches_no_service DynamicHeader.extractDataFromImage
           (scripted (inr "[]") (ReadFailed "error")) (Some Sample.client) []
           Sample.reviewed Sample.png "error" eq_refl eq_refl eq_refl).
Defined.

(** ** Selections while an extraction is in flight *)

Lemma handleFileChange_keeps (rt : Runtime) (file0 : option File) (st : App.State) :
  App.isLoading (App.handleFileChange rt file0 st) = App.isLoading st /\
  App.configError (App.handleFileChange rt file0 st) = App.configError st.
Proof.
  unfold App.handleFileChange.
  destruct file0 as [file|]; [destruct (App.accepted_type (type file))|];
    split; reflexivity.
Qed.

Lemma handleFileChange_image (rt : Runtime) (file0 : option File) (st : App.State) :
  (App.imageDataUrl (App.handleFileChange rt file0 st) = None
   <-> App.imageFile (App.handleFileChange rt file0 st) = None) /\
  (forall file, App.imageFile (App.handleFileChange rt file0 st) = Some file ->
                App.accepted_type (type file) = true).
Proof.
  unfold App.handleFileChange.
  destruct file0 as [file|]; [destruct (App.accepted_type (type file)) eqn:E|];
    cbn; (split; [split; intros H; try discriminate H; reflexivity|]);
    intros f Hf; try discriminate Hf.
  injection Hf as <-. exact E.
Qed.

Lemma handleExtractData_enter_keeps (st : App.State) :
  let st' := fst (App.handleExtractData_enter st) in
  App.imageFile st' = App.imageFile st /\
  App.imageDataUrl st' = App.imageDataUrl st /\
  App.configError st' = App.configError st /\
  match snd (App.handleExtractData_enter st) with
  | Some _ => App.isLoading st' = true
  | None => App.isLoading st' = App.isLoading st
  end.
Proof.
  unfold App.handleExtractData_enter. destruct st as [file url data loading err conf].
  cbn. destruct (truthy conf); [now repeat split|].
  destruct file; now repeat split.
Qed.

Lemma handleExtractData_settle_keeps (outcome : Thrown + Json) (st : App.State) :
  let st' := App.handleExtractData_settle outcome st in
  App.imageFile st' = App.imageFile st /\
  App.imageDataUrl st' = App.imageDataUrl st /\
  App.configError st' = App.configError st /\
  App.isLoading st' = false.
Proof. destruct outcome; now repeat split. Qed.

(** X4. Whatever the user selects and clicks from the start of the
    page, and in whatever order the extractions settle, also when a
    selection or a click comes while an extraction is in flight: the
    loading flag is on only while an extraction is in flight; there is a
    preview exactly when there is a selected image; the selected image
    has one of the three accepted types; and the configuration error is
    the one set on mount. *)
Theorem loading_only_while_in_flight (rt : Runtime) (ai : option GoogleGenAI)
    (evs : list Interleaved.Event) :
  let s := Interleaved.run rt (Interleaved.start ai) evs in
  let st := Interleaved.view s in
  (App.isLoading st = true -> 0 < Interleaved.in_flight s) /\
  (App.imageDataUrl st = None <-> App.imageFile st = None) /\
  (forall file, App.imageFile st = Some file -> App.accepted_type (type file) = true) /\
  App.configError st = App.configError (App.useEffect_mount ai App.initial).
Proof.
  cbv zeta. unfold Interleaved.run.
  assert (H0 : let s := Interleaved.start ai in
               (App.isLoading (Interleaved.view s) = true -> 0 < Interleaved.in_flight s) /\
               (App.imageDataUrl (Interleaved.view s) = None
                <-> App.imageFile (Interleaved.view s) = None) /\
               (forall file, App.imageFile (Interleaved.view s) = Some file ->
                             App.accepted_type (type file) = true) /\
               App.configError (Interleaved.view s)
               = App.configError (App.useEffect_mount ai App.initial)).
  { unfold Interleaved.start, App.useEffect_mount.
    destruct (negb (isApiConfigured ai)); cbn; repeat split; discriminate. }
  cbv zeta in H0. revert H0. generalize (Interleaved.start ai) as s.
  generalize (App.configError (App.useEffect_mount ai App.initial)) as mounted.
  intros mounted s. revert s.
  induction evs as [|ev evs IH]; intros s Hs; [exact Hs|].
  cbn [fold_left]. apply IH. clear IH.
  destruct Hs as [Hload [Hurl [Htype Hconf]]].
  destruct ev as [file0| |outcome]; cbn [Interleaved.step].
  - cbn [Interleaved.view Interleaved.in_flight].
    destruct (handleFileChange_keeps rt file0 (Interleaved.view s)) as [Hl Hc].
    destruct (handleFileChange_image rt file0 (Interleaved.view s)) as [Hu Ht].
    rewrite Hl, Hc. repeat split; try assumption; apply Hu.
  - pose proof (handleExtractData_enter_keeps (Interleaved.view s)) as Hk.
    cbv zeta in Hk. destruct Hk as [Hf [Hu [Hc Hl]]].
    destruct (App.handleExtractData_enter (Interleaved.view s)) as [st [file|]];
      cbn [fst snd] in *; cbn [Interleaved.view Interleaved.in_flight];
      rewrite Hf, Hu, Hc; repeat split; try assumption; try apply Hurl; try lia.
    rewrite Hl. exact Hload.
  - destruct (Interleaved.in_flight s) as [|others] eqn:Hn.
    + repeat split; try assumption; try apply Hurl.
      rewrite Hn. exact Hload.
    + pose proof (handleExtractData_settle_keeps outcome (Interleaved.view s)) as Hk.
      cbv zeta in Hk. destruct Hk as [Hf [Hu [Hc Hl]]].
      cbn [Interleaved.view Interleaved.in_flight].
      rewrite Hf, Hu, Hc, Hl. repeat split; try assumption; try apply Hurl.
      discriminate.
Qed.

(** A selection while the extraction is in flight leaves the loading
    flag on. *)
Example selection_while_loading :
  let s := Interleaved.run (scripted (inr "[]") (Loaded EmptyString))
             (Interleaved.start (Some Sample.client))
             [Interleaved.Select (Some Sample.png); Interleaved.Click;
              Interleaved.Select (Some Sample.png)] in
  App.isLoading (Interleaved.view s) = true /\ Interleaved.in_flight s = 1.
Proof. split; reflexivity. Qed.

(** The result of an extraction lands on the page also when another
    image has been selected in the meantime. *)
Example late_result_lands_on_new_image :
  let other := {| name := "other.png"; type := "image/png" |} in
  let s := Interleaved.run (scripted (inr "[]") (Loaded EmptyString))
             (Interleaved.start (Some Sample.client))
             [Interleaved.Select (Some Sample.png); Interleaved.Click;
              Interleaved.Select (Some other);
              Interleaved.Settle (inr (JArray [JObject [("row", JString "1")]]))] in
  App.imageFile (Interleaved.view s) = Some other /\
  App.extractedData (Interleaved.view s) = Some (JArray [JObject [("row", JString "1")]]) /\
  App.isLoading (Interleaved.view s) = false.
Proof. repeat split. Qed.

(** ** From the click to the request *)

Lemma request_of_fields (r : Revision) (base64Image : option string) (mimeType : string) :
  inlineData_data (request_of r base64Image mimeType) = base64Image /\
  inlineData_mimeType (request_of r base64Image mimeType) = mimeType /\
  model (request_of r base64Image mimeType) = "gemini-2.5-flash" /\
  responseMimeType (request_of r base64Image mimeType) = "application/json".
Proof. destruct r; repeat split. Qed.

(** The log of [handleExtractData] once it goes past its guards and the
    file is read. *)
Lemma handleExtractData_dispatched (r : Revision) (rt : Runtime)
    (ai : option GoogleGenAI) (log : Log) (st : App.State) (file : File)
    (result : string) :
  truthy (App.configError st) = false ->
  App.imageFile st = Some file ->
  readAsDataURL rt file = Loaded result ->
  App.handleExtractData (extractDataFromImage_of r) rt ai log st
  = let (log', outcome) :=
      extractDataFromImage_of r rt ai (index (split comma result) 1) (type file)
        (log ++ [FileRead (name file)]) in
    (log',
     App.handleExtractData_settle outcome
       (App.seq [App.setIsLoading true; App.setError None; App.setExtractedData None] st)).
Proof.
  intros Hc Hf Hr.
  unfold App.handleExtractData, App.handleExtractData_enter, App.extraction,
    App.fileToBase64, bind, emit, ret.
  rewrite Hc, Hf. cbn. rewrite Hr. cbn.
  destruct (extractDataFromImage_of r rt ai _ _ _) as [log' [err|data]]; reflexivity.
Qed.

Lemma calls_after_dispatch (r : Revision) (rt : Runtime)
    (client : GoogleGenAI) (log : Log) (st : App.State) (file : File)
    (result : string) :
  truthy (App.configError st) = false ->
  App.imageFile st = Some file ->
  readAsDataURL rt file = Loaded result ->
  network_calls
    (fst (App.handleExtractData (extractDataFromImage_of r) rt (Some client) log st))
  = network_calls log
      ++ [(apiKey client, request_of r (index (split comma result) 1) (type file))].
Proof.
  intros Hc Hf Hr.
  rewrite (handleExtractData_dispatched r rt (Some client) log st file result Hc Hf Hr).
  assert (H : network_calls
                (fst (extractDataFromImage_of r rt (Some client)
                        (index (split comma result) 1) (type file)
                        (log ++ [FileRead (name file)])))
              = network_calls (log ++ [FileRead (name file)])
                  ++ [(apiKey client,
                       request_of r (index (split comma result) 1) (type file))]).
  { destruct r; unfold_extract;
      destruct (generateContent rt _ _ _) as [[message|what]|response_text];
      try destruct (JSON_parse rt _) as [message|v];
      cbn; split_on_includes; cbn;
      rewrite ?network_calls_app; cbn; rewrite ?app_nil_r; reflexivity. }
  destruct (extractDataFromImage_of r rt (Some client) _ _ _) as [log' outcome].
  cbn in H |- *. rewrite H, network_calls_app. cbn. now rewrite app_nil_r.
Qed.

Lemma calls_after_failed_read (r : Revision) (rt : Runtime) (ai : option GoogleGenAI)
    (log : Log) (st : App.State) (file : File) (event : string) :
  truthy (App.configError st) = false ->
  App.imageFile st = Some file ->
  readAsDataURL rt file = ReadFailed event ->
  network_calls (fst (App.handleExtractData (extractDataFromImage_of r) rt ai log st))
  = network_calls log.
Proof.
  intros Hc Hf Hr.
  unfold App.handleExtractData, App.handleExtractData_enter, App.extraction,
    App.fileToBase64, bind, emit.
  rewrite Hc, Hf. cbn. rewrite Hr. cbn.
  rewrite network_calls_app. cbn. now rewrite app_nil_r.
Qed.

(** X6. Every extraction that goes past the guards with a readable file
    and a handle makes one fresh network call, whatever the log already
    holds (nothing is cached or deduplicated). The request of that call
    carries the second comma-separated field of the reader's result as
    image data and the type of the selected file as MIME type, under the
    key of the handle. *)
Theorem fresh_call_per_extraction (r : Revision) (rt : Runtime)
    (client : GoogleGenAI) (log : Log) (st : App.State) (file : File)
    (result : string) :
  truthy (App.configError st) = false ->
  App.imageFile st = Some file ->
  readAsDataURL rt file = Loaded result ->
  network_calls
    (fst (App.handleExtractData (extractDataFromImage_of r) rt (Some client) log st))
  = network_calls log
      ++ [(apiKey client, request_of r (index (split comma result) 1) (type file))].
Proof. exact (calls_after_dispatch r rt client log st file result). Qed.

Lemma fresh_call_per_extraction_witness :
  let rt := scripted (inr "[]") (Loaded (Spec.data_url "image/png" "iVBORw0KGgo=")) in
  let earlier := [NetworkCall "key" (FixedSchema.request (Some "iVBORw0KGgo=") "image/png")] in
  network_calls
    (fst (App.handleExtractData FixedSchema.extractDataFromImage rt
            (Some Sample.client) earlier Sample.reviewed))
  = [("key", FixedSchema.request (Some "iVBORw0KGgo=") "image/png");
     ("key", FixedSchema.request (Some "iVBORw0KGgo=") "image/png")].
Proof.
  exact (fresh_call_per_extraction FixedSchemaRevision
           (scripted (inr "[]") (Loaded (Spec.data_url "image/png" "iVBORw0KGgo=")))
           Sample.client
           [NetworkCall "key" (FixedSchema.request (Some "iVBORw0KGgo=") "image/png")]
           Sample.reviewed Sample.png (Spec.data_url "image/png" "iVBORw0KGgo=")
           eq_refl eq_refl eq_refl).
Defined.

(** The calls one click adds, in general. *)
Lemma handleExtractData_calls (r : Revision) (rt : Runtime) (ai : option GoogleGenAI)
    (log : Log) (st : App.State) :
  exists calls,
    network_calls (fst (App.handleExtractData (extractDataFromImage_of r) rt ai log st))
    = network_calls log ++ calls /\
    Forall (fun call =>
              exists client file,
                ai = Some client /\ App.imageFile st = Some file /\
                fst call = apiKey client /\
                snd call = request_of r (inlineData_data (snd call)) (type file))
           calls.
Proof.
  destruct (truthy (App.configError st)) eqn:Hc.
  { exists []. rewrite app_nil_r. split; [|constructor].
    unfold App.handleExtractData, App.handleExtractData_enter. now rewrite Hc. }
  destruct (App.imageFile st) as [file|] eqn:Hf.
  2:{ exists []. rewrite app_nil_r. split; [|constructor].
      unfold App.handleExtractData, App.handleExtractData_enter. now rewrite Hc, Hf. }
  destruct (readAsDataURL rt file) as [result|event] eqn:Hr.
  - destruct ai as [client|].
    + exists [(apiKey client, request_of r (index (split comma result) 1) (type file))].
      split; [now apply calls_after_dispatch|].
      constructor; [|constructor]. exists client, file.
      repeat split; try reflexivity. destruct r; reflexivity.
    + exists []. rewrite app_nil_r. split; [|constructor].
      rewrite (handleExtractData_dispatched r rt None log st file result Hc Hf Hr).
      destruct r; cbn; rewrite network_calls_app; cbn; now rewrite app_nil_r.
  - exists []. rewrite app_nil_r. split; [|constructor].
    exact (calls_after_failed_read r rt ai log st file event Hc Hf Hr).
Qed.

Lemma init_service_key (env_API_KEY : option string) (client : GoogleGenAI) :
  fst (init_service env_API_KEY) = Some client ->
  env_API_KEY = Some (apiKey client).
Proof.
  unfold init_service. destruct env_API_KEY as [[|c key]|]; cbn; intros H;
    try discriminate H. injection H as <-. reflexivity.
Qed.

Lemma startup_calls (env_API_KEY : option string) :
  App.handle (App.startup env_API_KEY) = fst (init_service env_API_KEY) /\
  network_calls (App.effects (App.startup env_API_KEY)) = [].
Proof.
  unfold App.startup, init_service.
  destruct (truthy env_API_KEY); split; reflexivity.
Qed.

Lemma step_calls (r : Revision) (rt : Runtime) (key : option string)
    (s : App.Session) (ev : App.Event) :
  App.handle s = fst (init_service key) ->
  settled rt (App.view s) ->
  Forall (call_of_session r key) (network_calls (App.effects s)) ->
  Forall (call_of_session r key)
    (network_calls (App.effects (App.step (extractDataFromImage_of r) rt s ev))).
Proof.
  intros Hh [Htype _] Hcalls. destruct ev as [file0|]; [exact Hcalls|].
  cbn. destruct (handleExtractData_calls r rt (App.handle s) (App.effects s) (App.view s))
    as [calls [Hlog Hnew]].
  destruct (App.handleExtractData _ _ _ _ _) as [log' st']. cbn in Hlog |- *.
  rewrite Hlog. apply Forall_app. split; [exact Hcalls|].
  eapply Forall_impl; [|exact Hnew].
  intros call [client [file [Hai [Hfile [Hkey Hreq]]]]].
  unfold call_of_session. rewrite Hkey.
  rewrite Hh in Hai. split; [exact (init_service_key _ _ Hai)|].
  assert (Hmime : inlineData_mimeType (snd call) = type file).
  { rewrite Hreq. apply request_of_fields. }
  rewrite Hmime. split; [exact (Htype _ Hfile)|exact Hreq].
Qed.

Lemma run_calls (r : Revision) (rt : Runtime) (key : option string)
    (evs : list App.Event) (s : App.Session) :
  App.handle s = fst (init_service key) ->
  settled rt (App.view s) ->
  Forall (call_of_session r key) (network_calls (App.effects s)) ->
  Forall (call_of_session r key)
    (network_calls (App.effects (App.run (extractDataFromImage_of r) rt s evs))).
Proof.
  revert s. induction evs as [|ev evs IH]; intros s Hh Hs H0; [exact H0|].
  apply (IH (App.step (extractDataFromImage_of r) rt s ev)).
  - rewrite <- Hh. apply step_handle.
  - now apply step_settled.
  - now apply step_calls.
Qed.

(** X7. Whatever the user does from the start of the page, every
    network call of the session is made under the credential the page
    was started with, for a MIME type that is image/jpeg, image/jpg or
    image/png, and with the request of the revision in use (its model,
    its prompt, its response format and schema). Without a credential
    no call is made at all. *)
Theorem session_calls (r : Revision) (rt : Runtime) (env_API_KEY : option string)
    (evs : list App.Event) :
  let calls :=
    network_calls
      (App.effects
         (App.run (extractDataFromImage_of r) rt (App.startup env_API_KEY) evs)) in
  Forall (call_of_session r env_API_KEY) calls /\
  (if truthy env_API_KEY then True else calls = []).
Proof.
  cbv zeta. split.
  - destruct (startup_calls env_API_KEY) as [Hh Hc].
    apply run_calls; [exact Hh | exact (session_settled_start rt env_API_KEY) |].
    rewrite Hc. constructor.
  - destruct (truthy env_API_KEY) eqn:Hk; [exact I|].
    pose proof (run_invariant (extractDataFromImage_of r) rt evs (App.startup env_API_KEY))
      as [_ [_ He]].
    rewrite He.
    + apply startup_calls.
    + unfold App.startup, init_service. rewrite Hk. reflexivity.
Qed.



(** ** The export read back *)

Lemma quoted_field_closed (v tail : string) :
  match tail with
  | EmptyString => True
  | String c _ => Ascii.eqb c dquote = false
  end ->
  Rfc4180.quoted_field (Spec.double_quotes v ++ String dquote tail) = Some (v, tail).
Proof.
  intros Htail. induction v as [|c v IH].
  - cbn. destruct tail as [|d tail']; [reflexivity|]. now rewrite Htail.
  - cbn [Spec.double_quotes]. destruct (Ascii.eqb c dquote) eqn:Hc.
    + apply Ascii.eqb_eq in Hc. subst c.
      cbn [String.append Rfc4180.quoted_field]. rewrite !Ascii.eqb_refl.
      fold Rfc4180.quoted_field. now rewrite IH.
    + cbn [String.append Rfc4180.quoted_field]. now rewrite Hc, IH.
Qed.

Lemma quoted_app (v rest : string) :
  (Spec.quoted v ++ rest)%string
  = String dquote (Spec.double_quotes v ++ String dquote rest).
Proof.
  unfold Spec.quoted, str1. cbn [String.append]. now rewrite append_assoc.
Qed.

Lemma records_last (fuel : nat) (v : string) :
  Rfc4180.records (S fuel) (Spec.quoted v) = Some [[v]].
Proof.
  rewrite <- (append_nil_r (Spec.quoted v)), quoted_app.
  cbn [Rfc4180.records]. rewrite Ascii.eqb_refl. cbn [negb].
  now rewrite quoted_field_closed.
Qed.

Lemma records_comma (fuel : nat) (v rest : string) :
  Rfc4180.records (S fuel) (Spec.quoted v ++ String comma rest)
  = match Rfc4180.records fuel rest with
    | Some (record :: others) => Some ((v :: record) :: others)
    | _ => None
    end.
Proof.
  rewrite quoted_app. cbn [Rfc4180.records]. rewrite Ascii.eqb_refl. cbn [negb].
  rewrite quoted_field_closed by reflexivity. now rewrite Ascii.eqb_refl.
Qed.

Lemma records_newline (fuel : nat) (v rest : string) :
  Rfc4180.records (S fuel) (Spec.quoted v ++ String newline rest)
  = match Rfc4180.records fuel rest with
    | Some others => Some ([v] :: others)
    | None => None
    end.
Proof.
  rewrite quoted_app. cbn [Rfc4180.records]. rewrite Ascii.eqb_refl. cbn [negb].
  rewrite quoted_field_closed by reflexivity. reflexivity.
Qed.

Lemma write_comma (v v2 : string) (vs : list string) (recs : list (list string)) :
  Rfc4180.write ((v :: v2 :: vs) :: recs)
  = (Spec.quoted v ++ String comma (Rfc4180.write ((v2 :: vs) :: recs)))%string.
Proof.
  unfold Rfc4180.write. cbn [map].
  rewrite (join_cons (str1 newline)
             (join (str1 comma) (Spec.quoted v :: Spec.quoted v2 :: map Spec.quoted vs))).
  rewrite (join_cons (str1 newline)
             (join (str1 comma) (Spec.quoted v2 :: map Spec.quoted vs))).
  rewrite join_step, !append_assoc. reflexivity.
Qed.

Lemma write_newline (v : string) (r : list string) (recs : list (list string)) :
  Rfc4180.write ([v] :: r :: recs)
  = (Spec.quoted v ++ String newline (Rfc4180.write (r :: recs)))%string.
Proof. reflexivity. Qed.

Lemma records_write (recs : list (list string)) :
  recs <> [] ->
  Forall (fun fields => fields <> []) recs ->
  forall fuel, length (concat recs) <= fuel ->
  Rfc4180.records fuel (Rfc4180.write recs) = Some recs.
Proof.
  induction recs as [|r recs IH]; [contradiction|].
  intros _ Hne. inversion Hne as [|? ? Hr Hrecs]; subst.
  destruct r as [|v vs]; [contradiction|]. clear Hr Hne.
  revert v. induction vs as [|v2 vs IHv]; intros v fuel Hfuel.
  - destruct fuel as [|fuel]; [cbn in Hfuel; lia|].
    destruct recs as [|r2 recs].
    + apply records_last.
    + rewrite write_newline, records_newline.
      rewrite IH; [reflexivity | discriminate | exact Hrecs |].
      cbn in Hfuel |- *. lia.
  - destruct fuel as [|fuel]; [cbn in Hfuel; lia|].
    rewrite write_comma, records_comma.
    rewrite (IHv v2 fuel); [reflexivity|]. cbn in Hfuel |- *. lia.
Qed.

Lemma length_app_string (a b : string) :
  String.length (a ++ b) = String.length a + String.length b.
Proof. induction a as [|c a IH]; cbn; [reflexivity|now rewrite IH]. Qed.

Lemma write_length (recs : list (list string)) :
  Forall (fun fields => fields <> []) recs ->
  length (concat recs) <= String.length (Rfc4180.write recs).
Proof.
  induction recs as [|r recs IH]; intros Hne; [cbn; lia|].
  inversion Hne as [|? ? Hr Hrecs]; subst.
  destruct r as [|v vs]; [contradiction|]. clear Hr Hne.
  revert v. induction vs as [|v2 vs IHv]; intros v.
  - destruct recs as [|r2 recs].
    + cbn. lia.
    + rewrite write_newline, quoted_app. specialize (IH Hrecs).
      cbn [String.length]. rewrite length_app_string. cbn [String.length].
      cbn [concat app length] in IH |- *. lia.
  - rewrite write_comma, quoted_app. specialize (IHv v2).
    cbn [String.length]. rewrite length_app_string. cbn [String.length].
    cbn [concat app length] in IHv |- *. lia.
Qed.

Lemma row_text_written (headers : list string) (row : TableRow) :
  Spec.row_text headers row
  = join (str1 comma) (map Spec.quoted (map (Spec.value_of row) headers)).
Proof. unfold Spec.row_text. now rewrite map_map. Qed.

Lemma csv_text_written (first : TableRow) (rest : ExtractedData) :
  Spec.csv_text first rest
  = (join (str1 comma) (Object_keys first)
     ++ String newline
          (Rfc4180.write
             (map (fun row => map (Spec.value_of row) (Object_keys first))
                  (first :: rest))))%string.
Proof.
  unfold Spec.csv_text, Rfc4180.write. rewrite map_map.
  rewrite (map_ext _ _ (row_text_written (Object_keys first))).
  cbn [map]. rewrite join_step. reflexivity.
Qed.

(** What [convertToCsv] returned, when it returned. *)
Lemma convertToCsv_returned (first : TableRow) (rest : ExtractedData) (output : string) :
  Csv.convertToCsv (Some (first :: rest)) = Csv.Normal output ->
  output = Spec.csv_text first rest.
Proof.
  rewrite convertToCsv_returns.
  destruct (existsb _ rest); intros H; [discriminate H|].
  now injection H as <-.
Qed.

(** X9. The data lines of the export read back as the cells they were
    made from. When the first row has a key and [convertToCsv] returns,
    its output is the header line, a line feed, and a text that a reader
    of quoted records (comma between fields, line feed between records,
    two double quotes for one) turns into exactly the list, per row, of
    the values under the header keys, the empty string for a missing
    key. This holds for all values, also those that contain commas,
    double quotes or line feeds. *)
Theorem data_lines_read_back (first : TableRow) (rest : ExtractedData) (output : string) :
  Object_keys first <> [] ->
  Csv.convertToCsv (Some (first :: rest)) = Csv.Normal output ->
  exists data_lines,
    output = (join (str1 comma) (Object_keys first) ++ String newline data_lines)%string /\
    Rfc4180.read data_lines
    = Some (map (fun row => map (Spec.value_of row) (Object_keys first)) (first :: rest)).
Proof.
  intros Hkeys Hout. apply convertToCsv_returned in Hout. subst output.
  eexists. split; [apply csv_text_written|].
  assert (Hne : Forall (fun fields : list string => fields <> [])
                  (map (fun row => map (Spec.value_of row) (Object_keys first))
                       (first :: rest))).
  { apply Forall_forall. intros fields Hin.
    apply in_map_iff in Hin as [row [<- _]].
    destruct (Object_keys first); [contradiction|discriminate]. }
  unfold Rfc4180.read. apply records_write; [discriminate | exact Hne |].
  now apply write_length.
Qed.

Lemma data_lines_read_back_witness :
  let tricky := ("Doe, " ++ str1 dquote ++ "Jo" ++ str1 dquote ++ String newline "Smith")%string in
  let first := [("row", "1"); ("Name", tricky)] in
  exists data_lines,
    Spec.csv_text first [[("row", "2")]]
    = ("row,Name" ++ String newline data_lines)%string /\
    Rfc4180.read data_lines = Some [["1"; tricky]; ["2"; EmptyString]].
Proof.
  cbv zeta.
  exact (data_lines_read_back
           [("row", "1");
            ("Name", ("Doe, " ++ str1 dquote ++ "Jo" ++ str1 dquote
                      ++ String newline "Smith")%string)]
           [[("row", "2")]]
           (Spec.csv_text
              [("row", "1");
               ("Name", ("Doe, " ++ str1 dquote ++ "Jo" ++ str1 dquote
                         ++ String newline "Smith")%string)]
              [[("row", "2")]])
           ltac:(discriminate) eq_refl).
Defined.

(** ** Lines and columns of the export *)

(** X10. When no key of the first row and no value of any row contains
    a line feed and [convertToCsv] returns, the output has exactly one
    line per row after the header line, whatever commas and double
    quotes the values contain and also when the first row has no key at
    all. *)
Theorem one_line_per_row (first : TableRow) (rest : ExtractedData) (output : string) :
  Forall (fun key => occurs newline key = false) (Object_keys first) ->
  Forall (fun row => Forall (fun kv => occurs newline (snd kv) = false) row)
    (first :: rest) ->
  Csv.convertToCsv (Some (first :: rest)) = Csv.Normal output ->
  exists lines,
    Csv.map_throwing (Csv.row_line (Object_keys first)) (first :: rest) = Csv.Normal lines /\
    split newline output = join (str1 comma) (Object_keys first) :: lines /\
    length (split newline output) = S (length (first :: rest)).
Proof.
  intros Hkeys Hrows Hout.
  pose proof (convertToCsv_returned _ _ _ Hout) as ->.
  unfold Csv.convertToCsv in Hout.
  destruct (Csv.map_throwing (Csv.row_line (Object_keys first)) (first :: rest))
    as [lines|] eqn:Hlines; [|discriminate Hout].
  injection Hout as Hout. exists lines. split; [reflexivity|].
  assert (H : split newline (Spec.csv_text first rest)
              = join (str1 comma) (Object_keys first)
                  :: map (Spec.row_text (Object_keys first)) (first :: rest))
    by now apply csv_text_lines.
  assert (Hl : lines = map (Spec.row_text (Object_keys first)) (first :: rest)).
  { rewrite (map_throwing_cases (Csv.reads_member (Object_keys first))
               (Spec.row_text (Object_keys first))) in Hlines
      by (intros row; apply row_line_cases).
    destruct (existsb _ (first :: rest)); [discriminate Hlines|].
    now injection Hlines as <-. }
  rewrite H, Hl. split; [reflexivity|]. cbn [length]. now rewrite length_map.
Qed.

Lemma one_line_per_row_witness :
  exists output,
    Csv.convertToCsv
      (Some [[("Name", "Doe, John"); ("Size", ("4'-7 1/8" ++ str1 dquote)%string)];
             [("Name", "Roe, Jane")]; []])
    = Csv.Normal output /\
    length (split newline output) = 4.
Proof.
  eexists. split; [reflexivity|].
  destruct (one_line_per_row
              [("Name", "Doe, John"); ("Size", ("4'-7 1/8" ++ str1 dquote)%string)]
              [[("Name", "Roe, Jane")]; []] _
              ltac:(repeat constructor) ltac:(repeat constructor) eq_refl)
    as [lines [_ [_ Hlen]]].
  exact Hlen.
Defined.

(** A value with a line feed spreads over two lines. *)
Example line_feed_in_value_adds_a_line :
  exists output,
    Csv.convertToCsv (Some [[("Note", String "a" (String newline "b"))]])
    = Csv.Normal output /\
    length (split newline output) = 3.
Proof. eexists. split; reflexivity. Qed.

Lemma map_throwing_ext_in {A B : Type} (f g : A -> Csv.Completion B) (l : list A) :
  (forall x, In x l -> f x = g x) ->
  Csv.map_throwing f l = Csv.map_throwing g l.
Proof.
  induction l as [|x l IH]; intros H; [reflexivity|].
  cbn [Csv.map_throwing]. rewrite (H x (or_introl eq_refl)).
  rewrite IH; [reflexivity|]. intros y Hy. apply H. now right.
Qed.

(** X11. The columns are fixed by the first row. Two inputs with the
    same first row, whose later rows agree on [row[header] || ''] under
    every key of the first row, end the same way: both throw, or both
    return the same output. So a key that only a later row has is never
    exported, and under a key that names no member of
    [Object.prototype] a missing value cannot be told from an empty
    one. *)
Theorem columns_fixed_by_first_row (first : TableRow) (rest rest' : ExtractedData) :
  Forall2 (fun row row' =>
             forall header, In header (Object_keys first) ->
                            Csv.or_empty (get row header) = Csv.or_empty (get row' header))
          rest rest' ->
  Csv.convertToCsv (Some (first :: rest)) = Csv.convertToCsv (Some (first :: rest')).
Proof.
  intros H. unfold Csv.convertToCsv. cbn [Csv.map_throwing].
  assert (Hrest : Csv.map_throwing (Csv.row_line (Object_keys first)) rest
                  = Csv.map_throwing (Csv.row_line (Object_keys first)) rest').
  { induction H as [|row row' rest rest' Hrow _ IH]; [reflexivity|].
    cbn [Csv.map_throwing]. rewrite IH.
    assert (Hline : Csv.row_line (Object_keys first) row
                    = Csv.row_line (Object_keys first) row').
    { unfold Csv.row_line.
      rewrite (map_throwing_ext_in (Csv.cell row) (Csv.cell row')); [reflexivity|].
      intros header Hin. unfold Csv.cell. now rewrite (Hrow header Hin). }
    now rewrite Hline. }
  now rewrite Hrest.
Qed.

Lemma columns_fixed_by_first_row_witness :
  Csv.convertToCsv (Some [[("a", "1")]; [("a", "2"); ("extra", "lost")]; [("a", EmptyString)]])
  = Csv.convertToCsv (Some [[("a", "1")]; [("a", "2")]; []]).
Proof.
  apply columns_fixed_by_first_row.
  repeat constructor; intros header [<-|[]]; reflexivity.
Defined.

(** Under the key constructor a missing value is told from an empty
    one: the first input is exported, the second throws. *)
Example missing_constructor_is_not_empty :
  Csv.convertToCsv (Some [[("constructor", "1")]; [("constructor", EmptyString)]])
  <> Csv.convertToCsv (Some [[("constructor", "1")]; []]).
Proof. discriminate. Qed.

(** X12. When the first row has at least one key and [convertToCsv]
    returns, the output ends with the closing double quote of its last
    cell: it never ends with a line feed, and it is never empty. *)
Theorem export_ends_with_quote (first : TableRow) (rest : ExtractedData) (output : string) :
  first <> [] ->
  Csv.convertToCsv (Some (first :: rest)) = Csv.Normal output ->
  last_char output = Some dquote /\
  last_char output <> Some newline /\
  output <> EmptyString.
Proof.
  intros Hne Hout. apply convertToCsv_returned in Hout. subst output.
  pose proof (csv_text_ends_with_quote first rest Hne) as H.
  split; [exact H|]. split.
  - intros E. rewrite E in H. discriminate H.
  - intros E. rewrite E in H. discriminate H.
Qed.

Lemma export_ends_with_quote_witness :
  exists output,
    Csv.convertToCsv (Some [[("a", EmptyString)]; []]) = Csv.Normal output /\
    last_char output = Some dquote.
Proof.
  eexists. split; [reflexivity|].
  exact (proj1 (export_ends_with_quote [("a", EmptyString)] [[]] _
                  ltac:(discriminate) eq_refl)).
Defined.

(** ** The table and the page *)

Lemma DataTable_rows (first : TableRow) (rest : ExtractedData) :
  View.DataTable (first :: rest)
  = Some {| View.thead := Object_keys first;
            View.tbody := map (fun row => map (get row) (Object_keys first))
                              (first :: rest) |}.
Proof. reflexivity. Qed.

Lemma existsb_map {A B : Type} (p : B -> bool) (g : A -> B) (l : list A) :
  existsb p (map g l) = existsb (fun x => p (g x)) l.
Proof. induction l as [|x l IH]; [reflexivity|]. cbn. now rewrite IH. Qed.

Lemma text_of_get (row : TableRow) (header : string) :
  Spec.text_of (get row header) = Spec.value_of row header.
Proof.
  unfold get, Spec.value_of. destruct (own row header); [reflexivity|].
  destruct (inherited header); reflexivity.
Qed.

(** X13. The table and the export agree. For a non-empty array the
    table has the keys of the first row as header cells, one body row
    per array element and, in every body row, one cell per header cell,
    which holds what the row gives under that header. The export throws
    exactly when some cell of the table holds a member of
    [Object.prototype]; otherwise it is the header cells joined by
    commas followed, per body row, by the texts of its cells quoted (a
    cell without text as the quoted empty string) and joined by commas:
    same columns, same order, same values. On the empty array
    [DataTable] throws. *)
Theorem table_and_export_agree (first : TableRow) (rest : ExtractedData) :
  View.DataTable [] = None /\
  exists table,
    View.DataTable (first :: rest) = Some table /\
    View.thead table = Object_keys first /\
    length (View.tbody table) = length (first :: rest) /\
    Forall (fun cells => length cells = length (View.thead table)) (View.tbody table) /\
    Csv.convertToCsv (Some (first :: rest))
    = if existsb (existsb Csv.is_member) (View.tbody table)
      then Csv.TypeError
      else Csv.Normal
             (join (str1 newline)
                (join (str1 comma) (View.thead table)
                   :: map (fun cells =>
                             join (str1 comma)
                               (map (fun shown => Spec.quoted (Spec.text_of shown)) cells))
                          (View.tbody table))).
Proof.
  split; [reflexivity|]. eexists. split; [apply DataTable_rows|].
  cbn [View.thead View.tbody]. split; [reflexivity|]. split; [apply length_map|].
  split.
  - apply Forall_forall. intros cells Hin. apply in_map_iff in Hin as [row [<- _]].
    apply length_map.
  - rewrite convertToCsv_cases, existsb_map.
    rewrite (existsb_pointwise
               (fun row => existsb Csv.is_member (map (get row) (Object_keys first)))
               (Csv.reads_member (Object_keys first)))
      by (intros row; apply existsb_map).
    destruct (existsb _ (first :: rest)); [reflexivity|].
    unfold Spec.csv_text. do 3 f_equal. rewrite map_map.
    apply map_ext. intros row. unfold Spec.row_text. rewrite map_map. f_equal.
    apply map_ext. intros header. now rewrite text_of_get.
Qed.

Example table_cell_holds_inherited_member :
  View.DataTable [[("constructor", "x")]; []]
  = Some {| View.thead := ["constructor"];
            View.tbody := [[Str "x"]; [Member "constructor"]] |}.
Proof. reflexivity. Qed.

(** X15. The controls follow the guards of the handler. When the
    extract button is enabled, nothing is loading and a click goes past
    both guards of [handleExtractData] with the selected image. When a
    configuration error is set, the file input and the extract button
    are disabled and the error panel shows the configuration error,
    whatever other error the state holds. The placeholder is shown only
    when nothing is loading, no error is shown and there are no data. *)
Theorem controls_follow_guards (st : App.State) (data : option ExtractedData) :
  let page := View.render st data in
  (View.extract_button_disabled page = false ->
   App.isLoading st = false /\
   exists file,
     App.imageFile st = Some file /\
     App.handleExtractData_enter st
     = (App.seq [App.setIsLoading true; App.setError None; App.setExtractedData None] st,
        Some file)) /\
  (truthy (App.configError st) = true ->
   View.file_input_disabled page = true /\
   View.extract_button_disabled page = true /\
   View.error_panel page = App.configError st /\
   snd (App.handleExtractData_enter st) = None) /\
  (View.placeholder_panel page = true ->
   View.loading_panel page = false /\
   View.error_panel page = None /\
   data = None /\
   View.data_table page = View.Absent /\
   View.no_data_panel page = false).
Proof.
  cbv zeta. split; [|split].
  - intros H. cbn in H. apply orb_false_elim in H as [H Hc].
    apply orb_false_elim in H as [Hf Hl]. split; [exact Hl|].
    unfold App.handleExtractData_enter. rewrite Hc.
    destruct (App.imageFile st) as [file|]; [|discriminate Hf].
    exists file. split; reflexivity.
  - intros H. repeat split.
    + exact H.
    + cbn. rewrite H. now rewrite orb_true_r.
    + cbn [View.render View.error_panel]. unfold View.when_truthy, View.finalError.
      rewrite H. cbv iota. now rewrite H.
    + unfold App.handleExtractData_enter. now rewrite H.
  - intros H. cbn in H |- *. unfold View.when_truthy.
    destruct (App.isLoading st); destruct (truthy (View.finalError st));
      destruct data; cbn in H; try discriminate H; repeat split.
Qed.

Lemma controls_follow_guards_witness :
  let st := App.handleFileChange (scripted (inr "[]") (Loaded EmptyString))
              (Some Sample.png) App.initial in
  View.extract_button_disabled (View.render st None) = false /\
  App.isLoading st = false /\
  exists file,
    App.imageFile st = Some file /\
    App.handleExtractData_enter st
    = (App.seq [App.setIsLoading true; App.setError None; App.setExtractedData None] st,
       Some file).
Proof.
  cbv zeta. split; [reflexivity|].
  exact (proj1 (controls_follow_guards
                  (App.handleFileChange (scripted (inr "[]") (Loaded EmptyString))
                     (Some Sample.png) App.initial)
                  None) eq_refl).
Defined.

(** ** The download *)

Lemma remove_appended (node : nat) (nodes : list nat) :
  Forall (fun n => n < node) nodes ->
  remove Nat.eq_dec node (nodes ++ [node]) = nodes.
Proof.
  intros H. rewrite remove_app. cbn.
  destruct (Nat.eq_dec node node) as [_|Hne]; [|contradiction].
  rewrite app_nil_r. apply notin_remove.
  intros Hin. rewrite Forall_forall in H. specialize (H _ Hin). lia.
Qed.

(** X16. [handleDownload] adds nothing to the guard of [downloadCsv],
    which does nothing for [null] and for the empty array. For a
    non-empty array, when [convertToCsv] throws, [downloadCsv] throws
    before it has touched the document and nothing is saved. When
    [convertToCsv] returns, in a browser that supports the download
    attribute, [downloadCsv] saves exactly one file, named
    extracted_data.csv, of type text/csv;charset=utf-8; and with the
    returned text as content; the link it appends to the body is removed
    again, so the body is left as it was; the object URL it makes is
    kept. Without that support nothing is saved. *)
Theorem downloadCsv_saves_once (supports_download : bool)
    (data : option ExtractedData) (doc : Download.Document) :
  Forall (fun node => node < Download.next_node doc) (Download.body doc) ->
  Download.handleDownload supports_download data doc
  = Download.downloadCsv supports_download data doc /\
  match data with
  | None | Some [] => Download.downloadCsv supports_download data doc = Csv.Normal doc
  | Some (first :: rest) =>
      match Csv.convertToCsv data with
      | Csv.TypeError =>
          Download.downloadCsv supports_download data doc = Csv.TypeError
      | Csv.Normal csvString =>
          exists doc',
            Download.downloadCsv supports_download data doc = Csv.Normal doc' /\
            Download.body doc' = Download.body doc /\
            if supports_download
            then Download.saved doc'
                 = Download.saved doc
                     ++ [{| Download.filename := "extracted_data.csv";
                            Download.mime := "text/csv;charset=utf-8;";
                            Download.content := csvString |}]
                 /\ Download.object_urls doc' = Download.object_urls doc ++ [csvString]
            else Download.saved doc' = Download.saved doc
                 /\ Download.object_urls doc' = Download.object_urls doc
      end
  end.
Proof.
  intros Hfresh. split; [destruct data; reflexivity|].
  destruct data as [[|first rest]|]; try reflexivity.
  unfold Download.downloadCsv.
  destruct (Csv.convertToCsv (Some (first :: rest : ExtractedData))) as [csvString|];
    [|reflexivity].
  destruct supports_download; cbn.
  - eexists. split; [reflexivity|]. cbn. split; [|split; reflexivity].
    now apply remove_appended.
  - eexists. split; [reflexivity|]. now repeat split.
Qed.

Lemma downloadCsv_saves_once_witness :
  let doc := {| Download.body := [0; 1; 2]; Download.next_node := 3;
                Download.object_urls := []; Download.saved := [] |} in
  exists doc',
    Download.downloadCsv true (Some [[("a", "1")]]) doc = Csv.Normal doc' /\
    Download.body doc' = [0; 1; 2] /\
    Download.saved doc'
    = [{| Download.filename := "extracted_data.csv";
          Download.mime := "text/csv;charset=utf-8;";
          Download.content := ("a" ++ String newline (Spec.quoted "1"))%string |}].
Proof.
  cbv zeta.
  destruct (proj2 (downloadCsv_saves_once true (Some [[("a", "1")]])
                     {| Download.body := [0; 1; 2]; Download.next_node := 3;
                        Download.object_urls := []; Download.saved := [] |}
                     ltac:(repeat constructor)))
    as [doc' [Hrun [Hbody [Hsaved _]]]].
  exists doc'. split; [exact Hrun|]. split; [exact Hbody | exact Hsaved].
Defined.

(** The download of rows of which one lacks the key constructor of the
    first: nothing is saved. *)
Example downloadCsv_throws :
  Download.downloadCsv true (Some [[("constructor", "x")]; []])
    {| Download.body := []; Download.next_node := 0;
       Download.object_urls := []; Download.saved := [] |}
  = Csv.TypeError.
Proof. reflexivity. Qed.

(** ** Outcomes of a click, and the unconfigured page *)





(** The other two ways, evaluated. *)
Example extraction_ends_in_error :
  let st' :=
    snd (App.handleExtractData FixedSchema.extractDataFromImage
           (scripted (inr "oops") (Loaded (Spec.data_url "image/png" "iVBORw0KGgo=")))
           (Some Sample.client) [] Sample.reviewed) in
  App.extractedData st' = None /\
  App.error st'
  = Some "Failed to process image with Gemini API: Unexpected token o in JSON at position 0".
Proof. split; reflexivity. Qed.

Example extraction_ends_in_data :
  let st' :=
    snd (App.handleExtractData DynamicHeader.extractDataFromImage
           (scripted (inr "[]") (Loaded (Spec.data_url "image/png" "iVBORw0KGgo=")))
           (Some Sample.client) [] Sample.reviewed) in
  App.extractedData st' = Some (JArray []) /\ App.error st' = None.
Proof. split; reflexivity. Qed.

(** X19. Without a credential the page stays out of use for the
    whole session: whatever the user does, the file input and the
    extract button are disabled, the error panel shows the configuration
    error and the placeholder is hidden. With a credential the file
    input is never disabled. *)
Theorem unconfigured_page_stays_disabled
    (extractDataFromImage :
       Runtime -> option GoogleGenAI -> option string -> string -> Eff Json)
    (rt : Runtime) (env_API_KEY : option string) (evs : list App.Event)
    (data : option ExtractedData) :
  let s := App.run extractDataFromImage rt (App.startup env_API_KEY) evs in
  let page := View.render (App.view s) data in
  if truthy env_API_KEY
  then View.file_input_disabled page = false
  else View.file_input_disabled page = true /\
       View.extract_button_disabled page = true /\
       View.error_panel page = Some Messages.config_error /\
       View.placeholder_panel page = false.
Proof.
  cbv zeta.
  pose proof (run_invariant extractDataFromImage rt evs (App.startup env_API_KEY))
    as [_ [Hc _]].
  assert (H0 : App.configError (App.view (App.startup env_API_KEY))
               = if truthy env_API_KEY then None else Some Messages.config_error).
  { unfold App.startup, init_service. destruct (truthy env_API_KEY); reflexivity. }
  rewrite H0 in Hc.
  destruct (truthy env_API_KEY); cbn; unfold View.when_truthy, View.finalError;
    rewrite Hc; cbn; [reflexivity|].
  rewrite orb_true_r, andb_false_r. now repeat split.
Qed.
